(** * PrepTrack: store policies, page aggregations and the AI-suggestion relay

  A shallow embedding of the parts of the PrepTrack sources that the
  specification's testable properties talk about:

  - the schema, row-level-security policies, foreign key and triggers of
    [supabase/migrations/20260201133614_...sql];
  - the page handlers of Resources, Roadmap, Applications, Interviews and
    Practice, and the Dashboard and Analytics aggregations;
  - the [ai-suggestions] edge function.

  JavaScript numbers are IEEE 754 doubles; they are modelled by Rocq's
  primitive floats, so that [a / b * 100] rounds exactly as it does in the
  browser. *)

From Stdlib Require Import ZArith List String Ascii Bool Lia.
From Stdlib Require Import Floats DecimalString.
From Stdlib Require DecimalZ DecimalPos.
From Stdlib Require Import Sorting.Sorted Sorting.Permutation.
Import ListNotations.

Open Scope string_scope.
Open Scope Z_scope.

(* ================================================================= *)
(** ** Ordering a list *)

(** Stable insertion sort by a boolean "comes no later than" test. It
    stands for ORDER BY in the store (which leaves the order of ties open)
    and for the ascending enumeration of index-like object keys. *)
Section Ordering.
Context {A : Type} (le : A -> A -> bool).

Fixpoint place (x : A) (l : list A) : list A :=
  match l with
  | [] => [x]
  | y :: rest => if le x y then x :: y :: rest else y :: place x rest
  end.

Definition order_by (l : list A) : list A := fold_right place [] l.

End Ordering.

(* ================================================================= *)
(** ** JavaScript values used by the sources *)

Module JS.

(** The Number type. *)
Definition number := float.

(** The Number nearest to an integer (round to nearest, ties to even):
    what an INTEGER column or an integer JSON literal becomes. *)
Definition of_Z (z : Z) : number :=
  SF2Prim (binary_normalize prec emax z 0 false).

(** [a > b] on Numbers; false as soon as one side is NaN. *)
Definition gt (a b : number) : bool := PrimFloat.ltb b a.

(** Results of [Math.round] and [Math.floor]: an integer, NaN or an
    infinity.  (A negative zero prints as [0] and is not kept apart.) *)
Inductive integral :=
| Int (z : Z)
| NaN
| Infinity (negative : bool).

(** [rounding shift x] is [floor (x + shift / 2)], computed exactly on the
    mantissa and exponent of [x]. *)
Definition rounding (shift : Z) (x : number) : integral :=
  match Prim2SF x with
  | S754_zero _ => Int 0
  | S754_infinity s => Infinity s
  | S754_nan => NaN
  | S754_finite s m e =>
      let n := if s then Z.neg m else Z.pos m in
      if 0 <=? e then Int (n * 2 ^ e)
      else Int ((2 * n + shift * 2 ^ (- e)) / (2 * 2 ^ (- e)))
  end.

(** [Math.floor]. *)
Definition floor : number -> integral := rounding 0.

(** [Math.round]: the nearest integer, a tie going towards +Infinity. *)
Definition round : number -> integral := rounding 1.

(** [i + k] for an integer [k]. *)
Definition plus (i : integral) (k : Z) : integral :=
  match i with
  | Int z => Int (z + k)
  | other => other
  end.

Definition decimal (z : Z) : string := NilZero.string_of_int (Z.to_int z).

(** Number to text, as a template literal or a JSX text node prints it
    (integers below 1e21 print in plain decimal). *)
Definition to_string (i : integral) : string :=
  match i with
  | Int z => decimal z
  | NaN => "NaN"
  | Infinity false => "Infinity"
  | Infinity true => "-Infinity"
  end.

(** A parsed JSON document. [Object] lists the own properties of the
    parsed object. *)
#[warnings="-register-all"]
Inductive value :=
| Null
| Boolean (b : bool)
| Number (x : number)
| Str (s : string)
| Array (items : list value)
| Object (props : list (string * value)).

(** ToBoolean. *)
Definition truthy (v : value) : bool :=
  match v with
  | Null => false
  | Boolean b => b
  | Number x => PrimFloat.eqb x x && negb (PrimFloat.eqb x PrimFloat.zero)
  | Str s => negb (s =? "")%string
  | Array _ | Object _ => true
  end.

Fixpoint lookup {A} (key : string) (props : list (string * A)) : option A :=
  match props with
  | [] => None
  | (k, v) :: rest => if (k =? key)%string then Some v else lookup key rest
  end.

(** [v.key] for a property name that no prototype defines; [None] is
    [undefined].  The receiver is not null. *)
Definition get (key : string) (v : value) : option value :=
  match v with
  | Object props => lookup key props
  | _ => None
  end.

(** [v[0]]. *)
Definition first (v : value) : option value :=
  match v with
  | Object props => lookup "0" props
  | Array items => hd_error items
  | Str (String c _) => Some (Str (String c EmptyString))
  | _ => None
  end.

(** [o?.f]: undefined when [o] is undefined or null. *)
Definition chain (o : option value) (f : value -> option value) : option value :=
  match o with
  | None | Some Null => None
  | Some v => f v
  end.

(** [o || fallback]. *)
Definition or_else (o : option value) (fallback : value) : value :=
  match o with
  | Some v => if truthy v then v else fallback
  | None => fallback
  end.

(** [Math.round((a / b) * 100)] on two integer-valued Numbers. *)
Definition percent (a b : Z) : integral :=
  round (PrimFloat.mul (PrimFloat.div (of_Z a) (of_Z b)) (of_Z 100)).

(** A plain object used as a dictionary: its string-keyed own properties
    in the order they were created. *)
Definition dict (A : Type) := list (string * A).

(** [o[key] = v] *)
Fixpoint assign {A} (key : string) (v : A) (o : dict A) : dict A :=
  match o with
  | [] => [(key, v)]
  | (k, x) :: rest =>
      if (k =? key)%string then (k, v) :: rest else (k, x) :: assign key v rest
  end.

(** [o[key] || 0] *)
Definition or_zero (n : option Z) : Z :=
  match n with
  | Some z => z
  | None => 0
  end.

(** A key that is the canonical decimal form of an integer below 2^32 - 1. *)
Definition array_index (k : string) : option N :=
  match NilEmpty.uint_of_string k with
  | Some u =>
      let n := N.of_uint u in
      if (NilZero.string_of_uint (N.to_uint n) =? k)%string && (n <? 4294967295)%N
      then Some n else None
  | None => None
  end.

(** [Object.entries(o)]: index-like keys first, ascending, then the other
    keys in creation order. *)
Definition entries {A} (o : dict A) : list (string * A) :=
  let indexed :=
    flat_map (fun kv => match array_index (fst kv) with
                        | Some n => [(n, kv)]
                        | None => []
                        end) o in
  let named :=
    filter (fun kv => match array_index (fst kv) with
                      | Some _ => false
                      | None => true
                      end) o in
  (map snd (order_by (fun a b => (fst a <=? fst b)%N) indexed) ++ named)%list.

(** What a [try] block can catch here. The message of the last three is
    chosen by the engine. *)
Inductive thrown :=
| Error (message : string)
| SyntaxError
| TypeError
| NetworkError.

(** [Math.random]: the k-th call of a run returns [draws k], a Number in
    [0, 1). *)
Definition entropy := nat -> number.

Definition in_unit_interval (x : number) : bool :=
  PrimFloat.leb PrimFloat.zero x && PrimFloat.ltb x PrimFloat.one.

End JS.

Definition nl : string := String (ascii_of_nat 10) EmptyString.

(* ================================================================= *)
(** ** Text *)

(** A character stands for the UTF-16 code unit of the same number: a
    string here is a JavaScript string over the code units below 256. *)
Module Text.

(** [toLowerCase] on one code unit: A to Z, and the capital letters from
    U+00C0 to U+00DE but for the multiplication sign U+00D7, move up by 32. *)
Definition lower (c : ascii) : ascii :=
  let n := nat_of_ascii c in
  if ((65 <=? n) && (n <=? 90)
      || (192 <=? n) && (n <=? 222) && negb (n =? 215))%nat
  then ascii_of_nat (n + 32)
  else c.

Fixpoint toLowerCase (s : string) : string :=
  match s with
  | EmptyString => EmptyString
  | String c rest => String (lower c) (toLowerCase rest)
  end.

(** [s.includes(t)]: [t] occurs in [s] at some position. *)
Fixpoint includes (s t : string) : bool :=
  String.prefix t s
  || match s with
     | EmptyString => false
     | String _ rest => includes rest t
     end.

End Text.

(* ================================================================= *)
(** ** The ai-suggestions edge function *)

Module Relay.

Record category_stat := {
  category : string;
  total : Z;
  completed : Z
}.

Record outcome_count := {
  outcome : string;
  count : Z
}.

(** The destructured request body. A field is [None] when the caller left
    it out. Numbers are the integer counts the declared interface carries. *)
Record payload := {
  resourcesByCategory : option (list category_stat);
  interviewOutcomes : option (list outcome_count);
  applicationCount : option Z
}.

(** What [await req.json()] meets. *)
Inductive body :=
| NotJson
| JsonNull
| JsonFields (p : payload).

Record request := {
  method : string;
  json : body
}.

(** [r.total > 0 ? Math.round((r.completed / r.total) * 100) : 0] *)
Definition percentage (r : category_stat) : JS.integral :=
  if JS.gt (JS.of_Z r.(total)) (JS.of_Z 0)
  then JS.percent r.(completed) r.(total)
  else JS.Int 0.

Definition resource_line (r : category_stat) : string :=
  "- " ++ r.(category) ++ ": " ++ JS.decimal r.(completed) ++ "/"
       ++ JS.decimal r.(total) ++ " completed ("
       ++ JS.to_string (percentage r) ++ "%)" ++ nl.

Definition outcome_line (o : outcome_count) : string :=
  "- " ++ o.(outcome) ++ ": " ++ JS.decimal o.(count) ++ " interviews" ++ nl.

Definition resources_block (rs : option (list category_stat)) : string :=
  match rs with
  | Some (r :: rest) =>
      "**Study Resources:**" ++ nl
        ++ String.concat "" (map resource_line (r :: rest)) ++ nl
  | _ => ""
  end.

Definition outcomes_block (os : option (list outcome_count)) : string :=
  match os with
  | Some (o :: rest) =>
      "**Interview Outcomes:**" ++ nl
        ++ String.concat "" (map outcome_line (o :: rest)) ++ nl
  | _ => ""
  end.

(** [if (applicationCount)]: undefined and 0 are both falsy. *)
Definition applications_block (n : option Z) : string :=
  match n with
  | Some count =>
      if count =? 0 then ""
      else "**Total Applications:** " ++ JS.decimal count ++ nl ++ nl
  | None => ""
  end.

Definition build_context (p : payload) : string :=
  "Based on the user's interview preparation data:" ++ nl ++ nl
    ++ resources_block p.(resourcesByCategory)
    ++ outcomes_block p.(interviewOutcomes)
    ++ applications_block p.(applicationCount).

Definition system_prompt : string :=
  "You are an expert career coach and interview preparation advisor. Analyze the user's interview preparation data and provide 3-5 specific, actionable suggestions to improve their chances of success. Focus on:" ++ nl
  ++ "1. Identifying weak areas based on resource completion rates" ++ nl
  ++ "2. Interview performance patterns" ++ nl
  ++ "3. Application strategy" ++ nl
  ++ "4. Recommended topics to study" ++ nl
  ++ "Be concise, encouraging, and specific. Use bullet points.".

(** The request sent to the completion backend. *)
Record completion_request := {
  url : string;
  authorization : string;
  model : string;
  system_content : string;
  user_content : string;
  max_tokens : Z;
  temperature : JS.number
}.

Definition completion_for (apiKey : string) (context : string) : completion_request :=
  {| url := "https://ai.gateway.lovable.dev/v1/chat/completions";
     authorization := "Bearer " ++ apiKey;
     model := "google/gemini-3-flash-preview";
     system_content := system_prompt;
     user_content := context ++ "Please provide personalized suggestions for my interview preparation based on this data.";
     max_tokens := 500;
     temperature := 0x1.6666666666666p-1%float |}.

(** The outcome of [fetch]: it rejects, or resolves with a response whose
    body may or may not parse as JSON. *)
Inductive fetched :=
| Rejected
| Resolved (ok : bool) (text : string) (parsed : option JS.value).

Definition backend := completion_request -> fetched.

Inductive reply_body :=
| Plain (text : string)
| Suggestions (suggestions : JS.value)
| Failure (error : JS.thrown).

Record response := {
  status : Z;
  content : reply_body
}.

Definition fallback : string := "Unable to generate suggestions at this time.".

(** [result.choices?.[0]?.message?.content] *)
Definition generated (result : JS.value) : JS.thrown + option JS.value :=
  match result with
  | JS.Null => inl JS.TypeError
  | _ =>
      inr (JS.chain (JS.chain (JS.chain (JS.get "choices" result) JS.first)
                              (JS.get "message"))
                    (JS.get "content"))
  end.

(** The body of the [try] block. [LOVABLE_API_KEY] is read from the
    environment; an empty value is as good as none. *)
Definition attempt (apiKey : option string) (ai : backend) (req : request)
  : JS.thrown + response :=
  match req.(json) with
  | NotJson => inl JS.SyntaxError
  | JsonNull => inl JS.TypeError
  | JsonFields p =>
      match apiKey with
      | None | Some "" => inl (JS.Error "LOVABLE_API_KEY not configured")
      | Some key =>
          match ai (completion_for key (build_context p)) with
          | Rejected => inl JS.NetworkError
          | Resolved false _ _ => inl (JS.Error "Failed to get AI response")
          | Resolved true _ None => inl JS.SyntaxError
          | Resolved true _ (Some result) =>
              match generated result with
              | inl e => inl e
              | inr c =>
                  inr {| status := 200;
                         content := Suggestions (JS.or_else c (JS.Str fallback)) |}
              end
          end
      end
  end.

Definition serve (apiKey : option string) (ai : backend) (req : request) : response :=
  if (req.(method) =? "OPTIONS")%string then {| status := 200; content := Plain "ok" |}
  else
    match attempt apiKey ai req with
    | inr r => r
    | inl e => {| status := 500; content := Failure e |}
    end.

End Relay.

(* ================================================================= *)
(** ** The schema of the migration *)

Definition uuid := string.

(** TIMESTAMP WITH TIME ZONE, in milliseconds since the epoch: the precision
    [new Date(...)] keeps. *)
Definition timestamptz := Z.

(** DATE, in its text form [YYYY-MM-DD]. *)
Definition date := string.

Module Profile.
Record t := {
  id : uuid; user_id : uuid;
  full_name : option string; avatar_url : option string;
  created_at : timestamptz; updated_at : timestamptz
}.
Definition set_updated_at (now : timestamptz) (r : t) : t :=
  {| id := r.(id); user_id := r.(user_id); full_name := r.(full_name);
     avatar_url := r.(avatar_url); created_at := r.(created_at);
     updated_at := now |}.
End Profile.

Module Resource.
Record t := {
  id : uuid; user_id : uuid;
  title : string; url : option string;
  category : string; resource_type : string;
  notes : option string; is_completed : bool;
  created_at : timestamptz; updated_at : timestamptz
}.
Definition set_updated_at (now : timestamptz) (r : t) : t :=
  {| id := r.(id); user_id := r.(user_id); title := r.(title); url := r.(url);
     category := r.(category); resource_type := r.(resource_type);
     notes := r.(notes); is_completed := r.(is_completed);
     created_at := r.(created_at); updated_at := now |}.
Definition set_is_completed (b : bool) (r : t) : t :=
  {| id := r.(id); user_id := r.(user_id); title := r.(title); url := r.(url);
     category := r.(category); resource_type := r.(resource_type);
     notes := r.(notes); is_completed := b;
     created_at := r.(created_at); updated_at := r.(updated_at) |}.
End Resource.

Module RoadmapItem.
Record t := {
  id : uuid; user_id : uuid;
  title : string; description : option string; target_date : option date;
  status : string; priority : string; week_number : option Z;
  created_at : timestamptz; updated_at : timestamptz
}.
Definition set_updated_at (now : timestamptz) (r : t) : t :=
  {| id := r.(id); user_id := r.(user_id); title := r.(title);
     description := r.(description); target_date := r.(target_date);
     status := r.(status); priority := r.(priority);
     week_number := r.(week_number);
     created_at := r.(created_at); updated_at := now |}.
Definition set_status (s : string) (r : t) : t :=
  {| id := r.(id); user_id := r.(user_id); title := r.(title);
     description := r.(description); target_date := r.(target_date);
     status := s; priority := r.(priority);
     week_number := r.(week_number);
     created_at := r.(created_at); updated_at := r.(updated_at) |}.
End RoadmapItem.

Module Application.
Record t := {
  id : uuid; user_id : uuid;
  company : string; role : string; status : string; applied_date : date;
  notes : option string; job_url : option string;
  salary_range : option string; location : option string;
  created_at : timestamptz; updated_at : timestamptz
}.
Definition set_updated_at (now : timestamptz) (r : t) : t :=
  {| id := r.(id); user_id := r.(user_id); company := r.(company);
     role := r.(role); status := r.(status); applied_date := r.(applied_date);
     notes := r.(notes); job_url := r.(job_url);
     salary_range := r.(salary_range); location := r.(location);
     created_at := r.(created_at); updated_at := now |}.
End Application.

Module Interview.
Record t := {
  id : uuid; user_id : uuid;
  application_id : option uuid;
  company : string; role : string;
  interview_date : timestamptz; interview_type : string;
  outcome : option string; notes : option string; feedback : option string;
  created_at : timestamptz; updated_at : timestamptz
}.
Definition set_updated_at (now : timestamptz) (r : t) : t :=
  {| id := r.(id); user_id := r.(user_id);
     application_id := r.(application_id);
     company := r.(company); role := r.(role);
     interview_date := r.(interview_date);
     interview_type := r.(interview_type);
     outcome := r.(outcome); notes := r.(notes); feedback := r.(feedback);
     created_at := r.(created_at); updated_at := now |}.
Definition set_application_id (a : option uuid) (r : t) : t :=
  {| id := r.(id); user_id := r.(user_id);
     application_id := a;
     company := r.(company); role := r.(role);
     interview_date := r.(interview_date);
     interview_type := r.(interview_type);
     outcome := r.(outcome); notes := r.(notes); feedback := r.(feedback);
     created_at := r.(created_at); updated_at := r.(updated_at) |}.
End Interview.

Module Contact.
Record t := {
  id : uuid; user_id : uuid;
  name : string; company : string;
  role : option string; email : option string; phone : option string;
  linkedin_url : option string; notes : option string;
  created_at : timestamptz; updated_at : timestamptz
}.
Definition set_updated_at (now : timestamptz) (r : t) : t :=
  {| id := r.(id); user_id := r.(user_id); name := r.(name);
     company := r.(company); role := r.(role); email := r.(email);
     phone := r.(phone); linkedin_url := r.(linkedin_url);
     notes := r.(notes);
     created_at := r.(created_at); updated_at := now |}.
End Contact.

Module PracticeTest.
Record t := {
  id : uuid; user_id : uuid;
  title : string; category : string;
  total_questions : Z; correct_answers : Z;
  time_taken_seconds : option Z; completed_at : option timestamptz;
  created_at : timestamptz
}.
End PracticeTest.

Module PastQuestion.
Record t := {
  id : uuid;
  company : string; role : option string;
  question_text : string; answer : option string;
  category : string; difficulty : string; year : option Z;
  created_at : timestamptz
}.
End PastQuestion.

(** The columns that [handleSubmit] of the Applications page writes. *)
Module ApplicationData.
Record t := {
  user_id : uuid;
  company : string; role : string; status : string; applied_date : date;
  job_url : option string; salary_range : option string;
  location : option string; notes : option string
}.
Definition assign (a : t) (r : Application.t) : Application.t :=
  {| Application.id := r.(Application.id);
     Application.user_id := a.(user_id);
     Application.company := a.(company);
     Application.role := a.(role);
     Application.status := a.(status);
     Application.applied_date := a.(applied_date);
     Application.notes := a.(notes);
     Application.job_url := a.(job_url);
     Application.salary_range := a.(salary_range);
     Application.location := a.(location);
     Application.created_at := r.(Application.created_at);
     Application.updated_at := r.(Application.updated_at) |}.
End ApplicationData.

(* ================================================================= *)
(** ** The store: rows, policies, constraints and triggers *)

Module Store.

Inductive table :=
| profiles | resources | roadmap_items | applications
| interviews | contacts | practice_tests | past_questions.

Scheme Equality for table.

(** A row together with the table it lives in. *)
Inductive row :=
| profiles_row (r : Profile.t)
| resources_row (r : Resource.t)
| roadmap_items_row (r : RoadmapItem.t)
| applications_row (r : Application.t)
| interviews_row (r : Interview.t)
| contacts_row (r : Contact.t)
| practice_tests_row (r : PracticeTest.t)
| past_questions_row (r : PastQuestion.t).

Definition table_of (r : row) : table :=
  match r with
  | profiles_row _ => profiles
  | resources_row _ => resources
  | roadmap_items_row _ => roadmap_items
  | applications_row _ => applications
  | interviews_row _ => interviews
  | contacts_row _ => contacts
  | practice_tests_row _ => practice_tests
  | past_questions_row _ => past_questions
  end.

Definition id_of (r : row) : uuid :=
  match r with
  | profiles_row x => x.(Profile.id)
  | resources_row x => x.(Resource.id)
  | roadmap_items_row x => x.(RoadmapItem.id)
  | applications_row x => x.(Application.id)
  | interviews_row x => x.(Interview.id)
  | contacts_row x => x.(Contact.id)
  | practice_tests_row x => x.(PracticeTest.id)
  | past_questions_row x => x.(PastQuestion.id)
  end.

(** The [user_id] column; [past_questions] has none. *)
Definition user_id_of (r : row) : option uuid :=
  match r with
  | profiles_row x => Some x.(Profile.user_id)
  | resources_row x => Some x.(Resource.user_id)
  | roadmap_items_row x => Some x.(RoadmapItem.user_id)
  | applications_row x => Some x.(Application.user_id)
  | interviews_row x => Some x.(Interview.user_id)
  | contacts_row x => Some x.(Contact.user_id)
  | practice_tests_row x => Some x.(PracticeTest.user_id)
  | past_questions_row _ => None
  end.

(** The six entity tables a user owns rows in. *)
Definition owned_entity (t : table) : bool :=
  match t with
  | resources | roadmap_items | applications
  | interviews | contacts | practice_tests => true
  | profiles | past_questions => false
  end.

(** The whole database: every row of every table, oldest first. *)
Definition database := list row.

Definition rows_of (t : table) (d : database) : list row :=
  filter (fun r => table_beq (table_of r) t) d.

(** *** Row-level security *)

Inductive command := SELECT | INSERT | UPDATE | DELETE.

Scheme Equality for command.

Inductive expression :=
| uid_is_user_id   (* auth.uid() = user_id *)
| sql_true.        (* true *)

(** [CREATE POLICY name ON table FOR command USING / WITH CHECK (expr)].
    An INSERT policy carries its expression as WITH CHECK, the others as
    USING; an UPDATE policy with no WITH CHECK of its own also checks the
    new row against USING. *)
Record policy := {
  name : string;
  on : table;
  for_command : command;
  expr : expression
}.

Definition policies : list policy :=
  [ {| name := "Users can view own profile"; on := profiles; for_command := SELECT; expr := uid_is_user_id |};
    {| name := "Users can create own profile"; on := profiles; for_command := INSERT; expr := uid_is_user_id |};
    {| name := "Users can update own profile"; on := profiles; for_command := UPDATE; expr := uid_is_user_id |};
    {| name := "Users can view own resources"; on := resources; for_command := SELECT; expr := uid_is_user_id |};
    {| name := "Users can create own resources"; on := resources; for_command := INSERT; expr := uid_is_user_id |};
    {| name := "Users can update own resources"; on := resources; for_command := UPDATE; expr := uid_is_user_id |};
    {| name := "Users can delete own resources"; on := resources; for_command := DELETE; expr := uid_is_user_id |};
    {| name := "Users can view own roadmap"; on := roadmap_items; for_command := SELECT; expr := uid_is_user_id |};
    {| name := "Users can create roadmap items"; on := roadmap_items; for_command := INSERT; expr := uid_is_user_id |};
    {| name := "Users can update roadmap items"; on := roadmap_items; for_command := UPDATE; expr := uid_is_user_id |};
    {| name := "Users can delete roadmap items"; on := roadmap_items; for_command := DELETE; expr := uid_is_user_id |};
    {| name := "Users can view own applications"; on := applications; for_command := SELECT; expr := uid_is_user_id |};
    {| name := "Users can create applications"; on := applications; for_command := INSERT; expr := uid_is_user_id |};
    {| name := "Users can update applications"; on := applications; for_command := UPDATE; expr := uid_is_user_id |};
    {| name := "Users can delete applications"; on := applications; for_command := DELETE; expr := uid_is_user_id |};
    {| name := "Users can view own interviews"; on := interviews; for_command := SELECT; expr := uid_is_user_id |};
    {| name := "Users can create interviews"; on := interviews; for_command := INSERT; expr := uid_is_user_id |};
    {| name := "Users can update interviews"; on := interviews; for_command := UPDATE; expr := uid_is_user_id |};
    {| name := "Users can delete interviews"; on := interviews; for_command := DELETE; expr := uid_is_user_id |};
    {| name := "Users can view own contacts"; on := contacts; for_command := SELECT; expr := uid_is_user_id |};
    {| name := "Users can create contacts"; on := contacts; for_command := INSERT; expr := uid_is_user_id |};
    {| name := "Users can update contacts"; on := contacts; for_command := UPDATE; expr := uid_is_user_id |};
    {| name := "Users can delete contacts"; on := contacts; for_command := DELETE; expr := uid_is_user_id |};
    {| name := "Users can view own tests"; on := practice_tests; for_command := SELECT; expr := uid_is_user_id |};
    {| name := "Users can create tests"; on := practice_tests; for_command := INSERT; expr := uid_is_user_id |};
    {| name := "Users can update tests"; on := practice_tests; for_command := UPDATE; expr := uid_is_user_id |};
    {| name := "Anyone can view past questions"; on := past_questions; for_command := SELECT; expr := sql_true |} ].

(** The value of a policy expression on a row, for the caller [uid]
    ([auth.uid()] is NULL for an anonymous caller, and NULL = x is not
    true). *)
Definition holds (e : expression) (uid : option uuid) (r : row) : bool :=
  match e with
  | sql_true => true
  | uid_is_user_id =>
      match uid, user_id_of r with
      | Some caller, Some owner => (caller =? owner)%string
      | _, _ => false
      end
  end.

(** Row security is enabled on all eight tables: a command reaches a row
    only if some policy of that table and command holds on it. *)
Definition permitted (c : command) (uid : option uuid) (r : row) : bool :=
  existsb (fun p => table_beq p.(on) (table_of r)
                    && command_beq p.(for_command) c
                    && holds p.(expr) uid r)
          policies.

(** *** Triggers and the foreign key *)

(** [update_<table>_updated_at BEFORE UPDATE ... FOR EACH ROW]:
    [NEW.updated_at = now()]. *)
Definition before_update (now : timestamptz) (r : row) : row :=
  match r with
  | profiles_row x => profiles_row (Profile.set_updated_at now x)
  | resources_row x => resources_row (Resource.set_updated_at now x)
  | roadmap_items_row x => roadmap_items_row (RoadmapItem.set_updated_at now x)
  | applications_row x => applications_row (Application.set_updated_at now x)
  | interviews_row x => interviews_row (Interview.set_updated_at now x)
  | contacts_row x => contacts_row (Contact.set_updated_at now x)
  | practice_tests_row _ | past_questions_row _ => r
  end.

(** [application_id UUID REFERENCES public.applications(id)]: the
    referenced application exists. *)
Definition references_hold (r : row) (d : database) : bool :=
  match r with
  | interviews_row i =>
      match i.(Interview.application_id) with
      | Some a => existsb (fun x => (id_of x =? a)%string) (rows_of applications d)
      | None => true
      end
  | _ => true
  end.

(** [ON DELETE SET NULL]: the store itself updates the interviews that
    referenced a deleted application. The update is not subject to the
    policies, and like every update of [interviews] it fires the table's
    update trigger. *)
Definition on_delete_set_null (now : timestamptz) (gone : list uuid) (r : row) : row :=
  match r with
  | interviews_row i =>
      match i.(Interview.application_id) with
      | Some a =>
          if existsb (String.eqb a) gone
          then before_update now (interviews_row (Interview.set_application_id None i))
          else r
      | None => r
      end
  | _ => r
  end.

(** Primary keys, and [profiles.user_id UNIQUE]. *)
Definition collides (r x : row) : bool :=
  table_beq (table_of x) (table_of r)
  && ((id_of x =? id_of r)%string
      || match r, x with
         | profiles_row a, profiles_row b => (a.(Profile.user_id) =? b.(Profile.user_id))%string
         | _, _ => false
         end).

(** *** Statements *)

Inductive pg_error :=
| row_security_violation
| unique_violation
| foreign_key_violation.

(** What the client gets back, [{ error }], and the database afterwards. *)
Record result := {
  error : option pg_error;
  db : database
}.

Definition failed (e : pg_error) (d : database) : result :=
  {| error := Some e; db := d |}.

(** [from(t).insert(r)]. *)
Definition insert (uid : option uuid) (r : row) (d : database) : result :=
  if negb (permitted INSERT uid r) then failed row_security_violation d
  else if existsb (collides r) d then failed unique_violation d
  else if negb (references_hold r d) then failed foreign_key_violation d
  else {| error := None; db := (d ++ [r])%list |}.

(** [from(t).select(...)]: the rows of [t] the caller may see. *)
Definition select (uid : option uuid) (t : table) (d : database) : list row :=
  filter (permitted SELECT uid) (rows_of t d).

(** The rows a statement [... WHERE id = $id] of command [c] acts on: the
    rows of the table with that id which pass the policies of [c] and,
    since the WHERE clause reads the row, those of SELECT. *)
Definition targeted (c : command) (uid : option uuid) (t : table) (id : uuid) (r : row) : bool :=
  table_beq (table_of r) t
  && (id_of r =? id)%string
  && permitted SELECT uid r
  && permitted c uid r.

(** The updates the pages issue. *)
Inductive patch :=
| is_completed_patch (b : bool)          (* resources: { is_completed } *)
| status_patch (s : string)              (* roadmap_items: { status } *)
| application_patch (a : ApplicationData.t).  (* applications: appData *)

Definition patch_table (p : patch) : table :=
  match p with
  | is_completed_patch _ => resources
  | status_patch _ => roadmap_items
  | application_patch _ => applications
  end.

Definition apply_patch (p : patch) (r : row) : row :=
  match p, r with
  | is_completed_patch b, resources_row x => resources_row (Resource.set_is_completed b x)
  | status_patch s, roadmap_items_row x => roadmap_items_row (RoadmapItem.set_status s x)
  | application_patch a, applications_row x => applications_row (ApplicationData.assign a x)
  | _, _ => r
  end.

Definition revise (now : timestamptz) (p : patch) (r : row) : row :=
  before_update now (apply_patch p r).

(** [from(t).update(p).eq('id', id)]. None of the patches touches a key
    or a referencing column, so only the policy can reject the new row. *)
Definition update (uid : option uuid) (now : timestamptz) (p : patch) (id : uuid)
  (d : database) : result :=
  let hit := targeted UPDATE uid (patch_table p) id in
  if forallb (fun r => negb (hit r) || permitted UPDATE uid (revise now p r)) d
  then {| error := None;
          db := map (fun r => if hit r then revise now p r else r) d |}
  else failed row_security_violation d.

(** [from(t).delete().eq('id', id)]. *)
Definition delete (uid : option uuid) (now : timestamptz) (t : table) (id : uuid)
  (d : database) : result :=
  let hit := targeted DELETE uid t id in
  let gone := if table_beq t applications then map id_of (filter hit d) else [] in
  {| error := None;
     db := map (on_delete_set_null now gone) (filter (fun r => negb (hit r)) d) |}.

End Store.

(* ================================================================= *)
(** ** The pages *)

Inductive toast :=
| toast_error (message : string)
| toast_success (message : string).

(** [formData.get(name) as string || null] *)
Definition or_null (s : string) : option string :=
  if (s =? "")%string then None else Some s.

Definition resources_in (l : list Store.row) : list Resource.t :=
  flat_map (fun r => match r with Store.resources_row x => [x] | _ => [] end) l.

Definition roadmap_items_in (l : list Store.row) : list RoadmapItem.t :=
  flat_map (fun r => match r with Store.roadmap_items_row x => [x] | _ => [] end) l.

Definition applications_in (l : list Store.row) : list Application.t :=
  flat_map (fun r => match r with Store.applications_row x => [x] | _ => [] end) l.

Definition interviews_in (l : list Store.row) : list Interview.t :=
  flat_map (fun r => match r with Store.interviews_row x => [x] | _ => [] end) l.

Definition contacts_in (l : list Store.row) : list Contact.t :=
  flat_map (fun r => match r with Store.contacts_row x => [x] | _ => [] end) l.

Definition practice_tests_in (l : list Store.row) : list PracticeTest.t :=
  flat_map (fun r => match r with Store.practice_tests_row x => [x] | _ => [] end) l.

(** [.eq('user_id', user.id)] *)
Definition eq_user_id (user : uuid) (l : list Store.row) : list Store.row :=
  filter (fun r => match Store.user_id_of r with
                   | Some owner => (owner =? user)%string
                   | None => false
                   end) l.

(** The pages run with the session of the signed-in [user]: the store sees
    [auth.uid() = user]. *)
Definition session (user : uuid) : option uuid := Some user.

Module ResourcesPage.

Record form := {
  title : string; url : string; category : string; type : string; notes : string
}.

Definition fetchResources (user : uuid) (d : Store.database) : list Resource.t :=
  order_by (fun a b => b.(Resource.created_at) <=? a.(Resource.created_at))
           (resources_in (eq_user_id user (Store.select (session user) Store.resources d))).

(** The row [handleAddResource] sends, completed by the column defaults
    ([id], [is_completed], [created_at], [updated_at]). *)
Definition new_resource (user : uuid) (f : form) (fresh : uuid) (now : timestamptz)
  : Resource.t :=
  {| Resource.id := fresh;
     Resource.user_id := user;
     Resource.title := f.(title);
     Resource.url := or_null f.(url);
     Resource.category := f.(category);
     Resource.resource_type := f.(type);
     Resource.notes := or_null f.(notes);
     Resource.is_completed := false;
     Resource.created_at := now;
     Resource.updated_at := now |}.

Definition handleAddResource (user : uuid) (f : form) (fresh : uuid) (now : timestamptz)
  (d : Store.database) : toast * Store.database :=
  let r := Store.insert (session user) (Store.resources_row (new_resource user f fresh now)) d in
  match r.(Store.error) with
  | Some _ => (toast_error "Failed to add resource", r.(Store.db))
  | None => (toast_success "Resource added!", r.(Store.db))
  end.

Definition toggleComplete (user : uuid) (now : timestamptz) (id : uuid) (completed : bool)
  (d : Store.database) : option toast * Store.database :=
  let r := Store.update (session user) now (Store.is_completed_patch (negb completed)) id d in
  match r.(Store.error) with
  | Some _ => (Some (toast_error "Failed to update"), r.(Store.db))
  | None => (None, r.(Store.db))
  end.

Definition deleteResource (user : uuid) (now : timestamptz) (id : uuid)
  (d : Store.database) : toast * Store.database :=
  let r := Store.delete (session user) now Store.resources id d in
  match r.(Store.error) with
  | Some _ => (toast_error "Failed to delete", r.(Store.db))
  | None => (toast_success "Resource deleted", r.(Store.db))
  end.

End ResourcesPage.

Module RoadmapPage.

(** [week_number] ascending; a NULL week sorts after every number. *)
Definition week_before (a b : option Z) : bool :=
  match a, b with
  | Some x, Some y => x <? y
  | Some _, None => true
  | None, _ => false
  end.

(** Text order of the [priority] column, by character code. *)
Definition text_le (a b : string) : bool :=
  match String.compare a b with
  | Gt => false
  | _ => true
  end.

(** [ORDER BY week_number ASC, priority DESC] *)
Definition listed_before (a b : RoadmapItem.t) : bool :=
  if week_before a.(RoadmapItem.week_number) b.(RoadmapItem.week_number) then true
  else if week_before b.(RoadmapItem.week_number) a.(RoadmapItem.week_number) then false
  else text_le b.(RoadmapItem.priority) a.(RoadmapItem.priority).

Definition fetchItems (user : uuid) (d : Store.database) : list RoadmapItem.t :=
  order_by listed_before
           (roadmap_items_in (eq_user_id user (Store.select (session user) Store.roadmap_items d))).

Definition updateStatus (user : uuid) (now : timestamptz) (id : uuid) (status : string)
  (d : Store.database) : option toast * Store.database :=
  let r := Store.update (session user) now (Store.status_patch status) id d in
  match r.(Store.error) with
  | Some _ => (Some (toast_error "Failed to update"), r.(Store.db))
  | None => (None, r.(Store.db))
  end.

Definition deleteItem (user : uuid) (now : timestamptz) (id : uuid)
  (d : Store.database) : toast * Store.database :=
  let r := Store.delete (session user) now Store.roadmap_items id d in
  match r.(Store.error) with
  | Some _ => (toast_error "Failed to delete", r.(Store.db))
  | None => (toast_success "Item deleted", r.(Store.db))
  end.

(** [items.length > 0 ? (completedCount / items.length) * 100 : 0], as
    shown: [Math.round(progress)]. *)
Definition progress (items : list RoadmapItem.t) : JS.integral :=
  let completedCount :=
    List.length (filter (fun i => (i.(RoadmapItem.status) =? "completed")%string) items) in
  if 0 <? Z.of_nat (List.length items)
  then JS.percent (Z.of_nat completedCount) (Z.of_nat (List.length items))
  else JS.Int 0.

(** [item.week_number || 0]: an item without a week counts as week 0. *)
Definition week_of (item : RoadmapItem.t) : Z :=
  match item.(RoadmapItem.week_number) with
  | Some w => w
  | None => 0
  end.

(** One step of the reduce, [if (!acc[week]) acc[week] = [];
    acc[week].push(item)]. The property key of the number [week] is its
    decimal text. *)
Definition push (acc : JS.dict (list RoadmapItem.t)) (item : RoadmapItem.t)
  : JS.dict (list RoadmapItem.t) :=
  let week := JS.decimal (week_of item) in
  JS.assign week
            (match JS.lookup week acc with Some l => l | None => [] end ++ [item])%list
            acc.

Definition groupedByWeek (items : list RoadmapItem.t) : JS.dict (list RoadmapItem.t) :=
  fold_left push items [].

(** [Number(key)] on the keys of [groupedByWeek], which are decimal
    integers; [None] is NaN. *)
Definition Number (key : string) : option Z :=
  option_map Z.of_int (NilZero.int_of_string key).

(** The comparison [Number(a) - Number(b)] puts [a] no later than [b]; a
    NaN difference counts as 0. *)
Definition week_no_later (a b : string * list RoadmapItem.t) : bool :=
  match Number (fst a), Number (fst b) with
  | Some x, Some y => x <=? y
  | _, _ => true
  end.

(** [Object.entries(groupedByWeek).sort(([a], [b]) => Number(a) - Number(b))];
    the sort is stable. *)
Definition weeks (items : list RoadmapItem.t) : list (string * list RoadmapItem.t) :=
  order_by week_no_later (JS.entries (groupedByWeek items)).

(** The heading of a group. *)
Definition week_title (week : string) : string :=
  if (week =? "0")%string then "Unscheduled" else "Week " ++ week.

End RoadmapPage.

Module ApplicationsPage.

Record form := {
  company : string; role : string; status : string; date : string;
  url : string; salary : string; location : string; notes : string
}.

Definition appData (user : uuid) (f : form) : ApplicationData.t :=
  {| ApplicationData.user_id := user;
     ApplicationData.company := f.(company);
     ApplicationData.role := f.(role);
     ApplicationData.status := f.(status);
     ApplicationData.applied_date := f.(date);
     ApplicationData.job_url := or_null f.(url);
     ApplicationData.salary_range := or_null f.(salary);
     ApplicationData.location := or_null f.(location);
     ApplicationData.notes := or_null f.(notes) |}.

Definition new_application (a : ApplicationData.t) (fresh : uuid) (now : timestamptz)
  : Application.t :=
  {| Application.id := fresh;
     Application.user_id := a.(ApplicationData.user_id);
     Application.company := a.(ApplicationData.company);
     Application.role := a.(ApplicationData.role);
     Application.status := a.(ApplicationData.status);
     Application.applied_date := a.(ApplicationData.applied_date);
     Application.notes := a.(ApplicationData.notes);
     Application.job_url := a.(ApplicationData.job_url);
     Application.salary_range := a.(ApplicationData.salary_range);
     Application.location := a.(ApplicationData.location);
     Application.created_at := now;
     Application.updated_at := now |}.

(** [editingApp] holds the id of the row being edited, if any. *)
Definition handleSubmit (user : uuid) (editingApp : option uuid) (f : form)
  (fresh : uuid) (now : timestamptz) (d : Store.database) : toast * Store.database :=
  match editingApp with
  | Some id =>
      let r := Store.update (session user) now (Store.application_patch (appData user f)) id d in
      match r.(Store.error) with
      | Some _ => (toast_error "Failed to update application", r.(Store.db))
      | None => (toast_success "Application updated!", r.(Store.db))
      end
  | None =>
      let r := Store.insert (session user)
                 (Store.applications_row (new_application (appData user f) fresh now)) d in
      match r.(Store.error) with
      | Some _ => (toast_error "Failed to add application", r.(Store.db))
      | None => (toast_success "Application added!", r.(Store.db))
      end
  end.

Definition deleteApplication (user : uuid) (now : timestamptz) (id : uuid)
  (d : Store.database) : toast * Store.database :=
  let r := Store.delete (session user) now Store.applications id d in
  match r.(Store.error) with
  | Some _ => (toast_error "Failed to delete", r.(Store.db))
  | None => (toast_success "Application deleted", r.(Store.db))
  end.

End ApplicationsPage.

Module InterviewsPage.

(** date-fns [isFuture(date)]: [+date > Date.now()]. *)
Definition isFuture (now : timestamptz) (date : timestamptz) : bool := now <? date.

(** date-fns [isPast(date)]: [+date < Date.now()]. *)
Definition isPast (now : timestamptz) (date : timestamptz) : bool := date <? now.

Definition fetchInterviews (user : uuid) (d : Store.database) : list Interview.t :=
  order_by (fun a b => a.(Interview.interview_date) <=? b.(Interview.interview_date))
           (interviews_in (eq_user_id user (Store.select (session user) Store.interviews d))).

(** [interviews.filter(i => test(new Date(i.interview_date)))]. Each test
    reads the clock anew: [clock k] is what the k-th call of [Date.now()]
    of the render returns. *)
Fixpoint filter_reading (clock : nat -> timestamptz) (k : nat)
  (test : timestamptz -> timestamptz -> bool) (l : list Interview.t) : list Interview.t :=
  match l with
  | [] => []
  | i :: rest =>
      if test (clock k) i.(Interview.interview_date)
      then i :: filter_reading clock (S k) test rest
      else filter_reading clock (S k) test rest
  end.

Definition upcomingInterviews (clock : nat -> timestamptz) (interviews : list Interview.t)
  : list Interview.t :=
  filter_reading clock 0 isFuture interviews.

Definition pastInterviews (clock : nat -> timestamptz) (interviews : list Interview.t)
  : list Interview.t :=
  filter_reading clock (List.length interviews) isPast interviews.

End InterviewsPage.

Module PracticePage.

Definition fetchTests (user : option uuid) (d : Store.database) : list PracticeTest.t :=
  match user with
  | Some u =>
      order_by (fun a b => b.(PracticeTest.created_at) <=? a.(PracticeTest.created_at))
               (practice_tests_in (eq_user_id u (Store.select (session u) Store.practice_tests d)))
  | None => []
  end.

(** [Math.round((test.correct_answers / test.total_questions) * 100)] *)
Definition score (test : PracticeTest.t) : JS.integral :=
  JS.percent test.(PracticeTest.correct_answers) test.(PracticeTest.total_questions).

(** The text of the score badge of the Test History tab. *)
Definition score_text (test : PracticeTest.t) : string :=
  JS.to_string (score test) ++ "%".

(** The question bank as the page fetches it: all of it, by company. *)
Definition fetchQuestions (caller : option uuid) (d : Store.database) : list PastQuestion.t :=
  order_by (fun a b => match String.compare a.(PastQuestion.company) b.(PastQuestion.company) with
                       | Gt => false
                       | _ => true
                       end)
           (flat_map (fun r => match r with Store.past_questions_row q => [q] | _ => [] end)
                     (Store.select caller Store.past_questions d)).

Definition filteredQuestions (search filter : string) (questions : list PastQuestion.t)
  : list PastQuestion.t :=
  List.filter
    (fun q =>
       let matchesSearch :=
         Text.includes (Text.toLowerCase q.(PastQuestion.company)) (Text.toLowerCase search)
         || Text.includes (Text.toLowerCase q.(PastQuestion.question_text))
                          (Text.toLowerCase search) in
       let matchesFilter :=
         (filter =? "all")%string || (q.(PastQuestion.category) =? filter)%string in
       matchesSearch && matchesFilter)
    questions.

End PracticePage.

(** [labels.map(l => ({ l, value: f(Math.random()) }))], the first label
    taking draw [k]. *)
Fixpoint draw_each (random : JS.entropy) (k : nat) (f : JS.number -> JS.integral)
  (labels : list string) : list (string * JS.integral) :=
  match labels with
  | [] => []
  | l :: rest => (l, f (random k)) :: draw_each random (S k) f rest
  end.

(** [counts[key] = (counts[key] || 0) + 1]. The dictionaries of the pages
    are keyed by column values; the model is that of keys which are not
    property names of [Object.prototype]. *)
Definition count_one (counts : JS.dict Z) (key : string) : JS.dict Z :=
  JS.assign key (JS.or_zero (JS.lookup key counts) + 1) counts.

Module DashboardPage.

Record DashboardStats := {
  totalResources : Z;
  completedResources : Z;
  totalApplications : Z;
  upcomingInterviews : Z;
  totalContacts : Z;
  roadmapProgress : JS.integral;
  applicationsByStatus : list (string * Z);
  weeklyProgress : list (string * JS.integral)
}.

Definition days : list string := ["Mon"; "Tue"; "Wed"; "Thu"; "Fri"; "Sat"; "Sun"].

(** [Math.floor(Math.random() * 5)] *)
Definition filler (r : JS.number) : JS.integral :=
  JS.floor (PrimFloat.mul r (JS.of_Z 5)).

(** [now] is the [new Date()] of the interviews query. *)
Definition fetchStats (user : uuid) (now : timestamptz) (random : JS.entropy)
  (d : Store.database) : DashboardStats :=
  let mine t := eq_user_id user (Store.select (session user) t d) in
  let resources := resources_in (mine Store.resources) in
  let applications := applications_in (mine Store.applications) in
  let interviews :=
    filter (fun i => now <=? i.(Interview.interview_date))
           (interviews_in (mine Store.interviews)) in
  let contacts := contacts_in (mine Store.contacts) in
  let roadmapItems := roadmap_items_in (mine Store.roadmap_items) in
  let completedResources :=
    Z.of_nat (List.length (filter Resource.is_completed resources)) in
  let completedRoadmap :=
    Z.of_nat (List.length
      (filter (fun r => (r.(RoadmapItem.status) =? "completed")%string) roadmapItems)) in
  let statusCounts :=
    fold_left (fun acc app => count_one acc app.(Application.status)) applications [] in
  {| totalResources := Z.of_nat (List.length resources);
     completedResources := completedResources;
     totalApplications := Z.of_nat (List.length applications);
     upcomingInterviews := Z.of_nat (List.length interviews);
     totalContacts := Z.of_nat (List.length contacts);
     roadmapProgress :=
       if 0 <? Z.of_nat (List.length roadmapItems)
       then JS.percent completedRoadmap (Z.of_nat (List.length roadmapItems))
       else JS.Int 0;
     applicationsByStatus := JS.entries statusCounts;
     weeklyProgress := draw_each random 0 filler days |}.

End DashboardPage.

Module AnalyticsPage.

Record AnalyticsData := {
  applicationsByMonth : list (string * Z);
  resourcesByCategory : list Relay.category_stat;
  interviewOutcomes : list Relay.outcome_count;
  progressOverTime : list (string * JS.integral)
}.

(** [categoryStats[c]] is created as [{ total: 0, completed: 0 }] on the
    first resource of category [c], then counted up. *)
Definition tally (stats : JS.dict (Z * Z)) (r : Resource.t) : JS.dict (Z * Z) :=
  let '(total, completed) :=
    match JS.lookup r.(Resource.category) stats with
    | Some s => s
    | None => (0, 0)
    end in
  JS.assign r.(Resource.category)
            (total + 1, if r.(Resource.is_completed) then completed + 1 else completed)
            stats.

(** [i.outcome || 'Pending'] *)
Definition outcome_key (outcome : option string) : string :=
  match outcome with
  | Some s => if (s =? "")%string then "Pending" else s
  | None => "Pending"
  end.

Definition outcomeCounts (outcomes : list (option string)) : JS.dict Z :=
  fold_left (fun acc o => count_one acc (outcome_key o)) outcomes [].

(** [Object.entries(outcomeCounts).map(([outcome, count]) => ...)] *)
Definition outcome_histogram (outcomes : list (option string)) : list Relay.outcome_count :=
  map (fun kv => {| Relay.outcome := fst kv; Relay.count := snd kv |})
      (JS.entries (outcomeCounts outcomes)).

Definition weeks : list string := ["W1"; "W2"; "W3"; "W4"].

(** [Math.floor(Math.random() * 10) + 1] *)
Definition filler (r : JS.number) : JS.integral :=
  JS.plus (JS.floor (PrimFloat.mul r (JS.of_Z 10))) 1.

(** [month_label] is [new Date(applied_date).toLocaleDateString('en-US',
    { month: 'short' })], which depends on the time zone of the browser. *)
Definition fetchAnalytics (month_label : date -> string) (user : uuid)
  (random : JS.entropy) (d : Store.database) : AnalyticsData :=
  let mine t := eq_user_id user (Store.select (session user) t d) in
  let monthCounts :=
    fold_left (fun acc app => count_one acc (month_label app.(Application.applied_date)))
              (applications_in (mine Store.applications)) [] in
  let categoryStats := fold_left tally (resources_in (mine Store.resources)) [] in
  {| applicationsByMonth := JS.entries monthCounts;
     resourcesByCategory :=
       map (fun kv => {| Relay.category := fst kv;
                         Relay.total := fst (snd kv);
                         Relay.completed := snd (snd kv) |})
           (JS.entries categoryStats);
     interviewOutcomes :=
       outcome_histogram (map Interview.outcome (interviews_in (mine Store.interviews)));
     progressOverTime := draw_each random 0 filler weeks |}.

(** The body [getAiSuggestions] posts to the relay; [data] is still null
    before the first fetch has finished. *)
Definition suggestions_request (data : option AnalyticsData) : Relay.payload :=
  {| Relay.resourcesByCategory := option_map resourcesByCategory data;
     Relay.interviewOutcomes := option_map interviewOutcomes data;
     Relay.applicationCount :=
       option_map (fun a => fold_left (fun sum m => sum + snd m) a.(applicationsByMonth) 0)
                  data |}.

End AnalyticsPage.

Module ContactsPage.

Record form := {
  name : string; company : string; role : string; email : string;
  phone : string; linkedin : string; notes : string
}.

Definition fetchContacts (user : uuid) (d : Store.database) : list Contact.t :=
  order_by (fun a b => RoadmapPage.text_le a.(Contact.company) b.(Contact.company))
           (contacts_in (eq_user_id user (Store.select (session user) Store.contacts d))).

Definition new_contact (user : uuid) (f : form) (fresh : uuid) (now : timestamptz)
  : Contact.t :=
  {| Contact.id := fresh;
     Contact.user_id := user;
     Contact.name := f.(name);
     Contact.company := f.(company);
     Contact.role := or_null f.(role);
     Contact.email := or_null f.(email);
     Contact.phone := or_null f.(phone);
     Contact.linkedin_url := or_null f.(linkedin);
     Contact.notes := or_null f.(notes);
     Contact.created_at := now;
     Contact.updated_at := now |}.

Definition handleAdd (user : uuid) (f : form) (fresh : uuid) (now : timestamptz)
  (d : Store.database) : toast * Store.database :=
  let r := Store.insert (session user) (Store.contacts_row (new_contact user f fresh now)) d in
  match r.(Store.error) with
  | Some _ => (toast_error "Failed to add contact", r.(Store.db))
  | None => (toast_success "Contact added!", r.(Store.db))
  end.

Definition deleteContact (user : uuid) (now : timestamptz) (id : uuid)
  (d : Store.database) : toast * Store.database :=
  let r := Store.delete (session user) now Store.contacts id d in
  match r.(Store.error) with
  | Some _ => (toast_error "Failed to delete", r.(Store.db))
  | None => (toast_success "Contact deleted", r.(Store.db))
  end.

Definition filteredContacts (search : string) (contacts : list Contact.t) : list Contact.t :=
  filter (fun c =>
            Text.includes (Text.toLowerCase c.(Contact.name)) (Text.toLowerCase search)
            || Text.includes (Text.toLowerCase c.(Contact.company)) (Text.toLowerCase search))
         contacts.

End ContactsPage.

Module SchedulePage.

(** The five columns the page selects. *)
Record entry := {
  id : uuid; company : string; role : string;
  interview_date : timestamptz; interview_type : string
}.

Definition selected (i : Interview.t) : entry :=
  {| id := i.(Interview.id); company := i.(Interview.company);
     role := i.(Interview.role); interview_date := i.(Interview.interview_date);
     interview_type := i.(Interview.interview_type) |}.

(** [start] and [finish] are [startOfMonth(month)] and [endOfMonth(month)]:
    the first and the last millisecond of the month on show, in the time
    zone of the browser. *)
Definition fetchInterviews (user : uuid) (start finish : timestamptz)
  (d : Store.database) : list entry :=
  order_by (fun a b => a.(interview_date) <=? b.(interview_date))
           (map selected
                (filter (fun i => (start <=? i.(Interview.interview_date))
                                  && (i.(Interview.interview_date) <=? finish))
                        (interviews_in
                           (eq_user_id user
                              (Store.select (session user) Store.interviews d))))).

(** [interviews.filter(i => new Date(i.interview_date) > new Date())], the
    first test taking reading [k] of the clock. *)
Fixpoint after_now (clock : nat -> timestamptz) (k : nat) (l : list entry) : list entry :=
  match l with
  | [] => []
  | i :: rest =>
      if clock k <? i.(interview_date)
      then i :: after_now clock (S k) rest
      else after_now clock (S k) rest
  end.

(** The Upcoming Interviews card: [None] stands for the line "No upcoming
    interviews this month". The filter runs once for the test and once more
    for the list, of which [slice(0, 5)] is shown. *)
Definition upcoming (clock : nat -> timestamptz) (interviews : list entry)
  : option (list entry) :=
  match after_now clock 0 interviews with
  | [] => None
  | _ => Some (firstn 5 (after_now clock (List.length interviews) interviews))
  end.

End SchedulePage.

Module AuthPage.

(** What a submit of a form of the page does: whether the identity
    provider is called, the toast, and where the page navigates. *)
Record result := {
  provider_called : bool;
  shown : toast;
  navigated : option string
}.

Definition rejected (message : string) : result :=
  {| provider_called := false; shown := toast_error message; navigated := None |}.

(** [z.string().min(n, ...)] fails. *)
Definition shorter_than (n : nat) (s : string) : bool := (String.length s <? n)%nat.

Section Handlers.

(** The check behind [z.string().email(...)]. *)
Variable valid_email : string -> bool.

(** [signIn] is the provider's sign-in: [None] when it reports no error,
    else the message of the error. *)
Definition handleSignIn (signIn : string -> string -> option string)
  (email password : string) : result :=
  if negb (valid_email email) then rejected "Please enter a valid email address"
  else if shorter_than 6 password then rejected "Password must be at least 6 characters"
  else
    match signIn email password with
    | Some message =>
        {| provider_called := true;
           shown :=
             toast_error
               (if Text.includes message "Invalid login credentials"
                then "Invalid email or password"
                else if Text.includes message "Email not confirmed"
                     then "Please verify your email before signing in"
                     else message);
           navigated := None |}
    | None =>
        {| provider_called := true;
           shown := toast_success "Welcome back!";
           navigated := Some "/" |}
    end.

Definition handleSignUp (signUp : string -> string -> string -> option string)
  (email password fullName : string) : result :=
  if shorter_than 2 fullName then rejected "Name must be at least 2 characters"
  else if negb (valid_email email) then rejected "Please enter a valid email address"
  else if shorter_than 6 password then rejected "Password must be at least 6 characters"
  else
    match signUp email password fullName with
    | Some message =>
        {| provider_called := true;
           shown :=
             toast_error
               (if Text.includes message "already registered"
                then "This email is already registered. Try signing in instead."
                else message);
           navigated := None |}
    | None =>
        {| provider_called := true;
           shown := toast_success
                      "Account created! Please check your email to verify your account.";
           navigated := None |}
    end.

End Handlers.

End AuthPage.

(* ================================================================= *)
(** ** Vocabulary of the statements *)

(** How often key [k] is counted among the outcomes. *)
Definition occurrences (k : string) (outcomes : list (option string)) : nat :=
  List.length (filter (fun o => (AnalyticsPage.outcome_key o =? k)%string) outcomes).

(** A payload in which every field that was left out is given as empty:
    no categories, no outcomes, zero applications. *)
Definition absent_as_empty (p : Relay.payload) : Relay.payload :=
  {| Relay.resourcesByCategory :=
       Some (match p.(Relay.resourcesByCategory) with Some l => l | None => [] end);
     Relay.interviewOutcomes :=
       Some (match p.(Relay.interviewOutcomes) with Some l => l | None => [] end);
     Relay.applicationCount :=
       Some (match p.(Relay.applicationCount) with Some n => n | None => 0 end) |}.

Definition empty_payload : Relay.payload :=
  {| Relay.resourcesByCategory := Some [];
     Relay.interviewOutcomes := Some [];
     Relay.applicationCount := Some 0 |}.

(** The two failures the relay names itself. *)
Definition configuration_error : Relay.response :=
  {| Relay.status := 500;
     Relay.content := Relay.Failure (JS.Error "LOVABLE_API_KEY not configured") |}.

Definition upstream_error : Relay.response :=
  {| Relay.status := 500;
     Relay.content := Relay.Failure (JS.Error "Failed to get AI response") |}.

(** The backend answered 2xx with a JSON document other than null in which
    [choices[0].message.content] is a string, is null or is missing. *)
Definition completed_normally (f : Relay.fetched) : bool :=
  match f with
  | Relay.Resolved true _ (Some result) =>
      match Relay.generated result with
      | inr None | inr (Some JS.Null) | inr (Some (JS.Str _)) => true
      | _ => false
      end
  | _ => false
  end.

(** The constraints of the schema on a database: no two rows collide on a
    primary key (or on the unique [user_id] of [profiles]), and every
    reference of an interview to an application is to one that exists. *)
Fixpoint keys_distinct (d : Store.database) : Prop :=
  match d with
  | [] => True
  | r :: rest => Forall (fun x => Store.collides r x = false) rest /\ keys_distinct rest
  end.

(** The application an interview row refers to, if any. *)
Definition referenced_application (r : Store.row) : option uuid :=
  match r with
  | Store.interviews_row i => i.(Interview.application_id)
  | _ => None
  end.

Definition references_valid (d : Store.database) : Prop :=
  Forall (fun r => Store.references_hold r d = true) d.

Definition constraints_hold (d : Store.database) : Prop :=
  keys_distinct d /\ references_valid d.

(** Row [r] is the row of table [t] with id [id] that belongs to [u]. *)
Definition own_row (u : uuid) (t : Store.table) (id : uuid) (r : Store.row) : bool :=
  Store.table_beq (Store.table_of r) t
  && (Store.id_of r =? id)%string
  && match Store.user_id_of r with
     | Some owner => (owner =? u)%string
     | None => false
     end.

(** The migration declares a policy for command [c] on table [t]. *)
Definition has_policy (c : Store.command) (t : Store.table) : bool :=
  existsb (fun p => Store.table_beq p.(Store.on) t
                    && Store.command_beq p.(Store.for_command) c)
          Store.policies.

(** The owner a patch writes into the row, if it writes one. *)
Definition patch_owner (p : Store.patch) : option uuid :=
  match p with
  | Store.application_patch a => Some a.(ApplicationData.user_id)
  | _ => None
  end.

(** The sum of a measure over the entries of a dictionary or chart. *)
Definition total_of {A} (measure : A -> Z) (l : list (string * A)) : Z :=
  fold_right (fun kv n => measure (snd kv) + n) 0 l.

(** The sum of a measure over a list. *)
Definition sum_by {A} (measure : A -> Z) (l : list A) : Z :=
  fold_right (fun x n => measure x + n) 0 l.

(** How many of the keys are [k]. *)
Definition times (k : string) (keys : list string) : Z :=
  Z.of_nat (count_occ string_dec keys k).

(* ================================================================= *)
(** ** Sample data *)

Module Sample.

Definition bobs_resource : Resource.t :=
  {| Resource.id := "r1"; Resource.user_id := "bob";
     Resource.title := "Neetcode 150"; Resource.url := None;
     Resource.category := "DSA"; Resource.resource_type := "article";
     Resource.notes := None; Resource.is_completed := false;
     Resource.created_at := 10; Resource.updated_at := 10 |}.

Definition alices_resource : Resource.t :=
  {| Resource.id := "r2"; Resource.user_id := "alice";
     Resource.title := "System Design Primer"; Resource.url := None;
     Resource.category := "System Design"; Resource.resource_type := "book";
     Resource.notes := None; Resource.is_completed := false;
     Resource.created_at := 20; Resource.updated_at := 20 |}.

Definition bobs_database : Store.database := [Store.resources_row bobs_resource].

(** Two runs of [Math.random]. *)
Definition low_draws : JS.entropy := fun _ => PrimFloat.zero.
Definition middle_draws : JS.entropy := fun _ => 0.5%float.

(** A backend that is down, and one that answers with a text. *)
Definition failing_backend : Relay.backend :=
  fun _ => Relay.Resolved false "quota exceeded" None.

Definition answering_backend : Relay.backend :=
  fun _ =>
    Relay.Resolved true ""
      (Some (JS.Object
               [("choices",
                 JS.Array [JS.Object
                             [("message",
                               JS.Object [("content", JS.Str "Practice graphs.")])]])])).

Definition acme : Application.t :=
  {| Application.id := "a1"; Application.user_id := "alice";
     Application.company := "Acme"; Application.role := "Engineer";
     Application.status := "Applied"; Application.applied_date := "2025-01-10";
     Application.notes := None; Application.job_url := None;
     Application.salary_range := None; Application.location := None;
     Application.created_at := 50; Application.updated_at := 50 |}.

Definition first_round : Interview.t :=
  {| Interview.id := "i1"; Interview.user_id := "alice";
     Interview.application_id := Some "a1";
     Interview.company := "Acme"; Interview.role := "Engineer";
     Interview.interview_date := 1000; Interview.interview_type := "Technical";
     Interview.outcome := None; Interview.notes := None; Interview.feedback := None;
     Interview.created_at := 100; Interview.updated_at := 100 |}.

Definition onsite : Interview.t :=
  {| Interview.id := "i2"; Interview.user_id := "alice";
     Interview.application_id := None;
     Interview.company := "Globex"; Interview.role := "Engineer";
     Interview.interview_date := 2000; Interview.interview_type := "Final Round";
     Interview.outcome := Some "Passed"; Interview.notes := None;
     Interview.feedback := None;
     Interview.created_at := 110; Interview.updated_at := 110 |}.

(** A practice test stored with the column defaults for its two counters. *)
Definition untaken_test : PracticeTest.t :=
  {| PracticeTest.id := "t1"; PracticeTest.user_id := "alice";
     PracticeTest.title := "Arrays"; PracticeTest.category := "DSA";
     PracticeTest.total_questions := 0; PracticeTest.correct_answers := 0;
     PracticeTest.time_taken_seconds := None; PracticeTest.completed_at := None;
     PracticeTest.created_at := 300 |}.

Definition roadmap_item (id priority : string) (week : option Z) : RoadmapItem.t :=
  {| RoadmapItem.id := id; RoadmapItem.user_id := "alice";
     RoadmapItem.title := id; RoadmapItem.description := None;
     RoadmapItem.target_date := None;
     RoadmapItem.status := "pending"; RoadmapItem.priority := priority;
     RoadmapItem.week_number := week;
     RoadmapItem.created_at := 400; RoadmapItem.updated_at := 400 |}.

(** A fetched roadmap: week 2, no week, week 1, week 2. *)
Definition fetched_roadmap : list RoadmapItem.t :=
  [ roadmap_item "dp" "high" (Some 2);
    roadmap_item "mock" "low" None;
    roadmap_item "arrays" "medium" (Some 1);
    roadmap_item "graphs" "low" (Some 2) ].

Definition blind75 : ResourcesPage.form :=
  {| ResourcesPage.title := "Blind 75"; ResourcesPage.url := "";
     ResourcesPage.category := "DSA"; ResourcesPage.type := "article";
     ResourcesPage.notes := "" |}.

Definition recruiter : Contact.t :=
  {| Contact.id := "c1"; Contact.user_id := "alice";
     Contact.name := "Dana Reyes"; Contact.company := "Acme";
     Contact.role := Some "Recruiter"; Contact.email := None; Contact.phone := None;
     Contact.linkedin_url := None; Contact.notes := None;
     Contact.created_at := 500; Contact.updated_at := 500 |}.

Definition alices_roadmap : Store.database :=
  [ Store.roadmap_items_row (roadmap_item "graphs" "high" (Some 1));
    Store.roadmap_items_row (roadmap_item "heaps" "medium" (Some 1));
    Store.roadmap_items_row (roadmap_item "tries" "low" (Some 1)) ].

Definition alices_database : Store.database :=
  [ Store.applications_row acme;
    Store.interviews_row first_round;
    Store.interviews_row onsite;
    Store.resources_row bobs_resource ].

End Sample.

(* ================================================================= *)
(** ** Row-level security *)

Lemma string_eqb_true (a b : string) : (a =? b)%string = true -> a = b.
Proof. apply String.eqb_eq. Qed.

(** On every table but [past_questions], a command passes the policies on
    a row only for the owner of the row. *)
Lemma permitted_owner (c : Store.command) (uid : option uuid) (r : Store.row) :
  Store.permitted c uid r = true ->
  Store.table_of r <> Store.past_questions ->
  Store.user_id_of r = uid.
Proof.
  intros H Hpq.
  destruct r; try (exfalso; apply Hpq; reflexivity);
    destruct c; destruct uid as [u|]; cbn in H; try discriminate;
    rewrite ?orb_false_r in H; apply string_eqb_true in H; subst; reflexivity.
Qed.

(** Writing commands pass the policies for the owner only, on all tables. *)
Lemma permitted_write_owner (c : Store.command) (uid : option uuid) (r : Store.row) :
  c <> Store.SELECT ->
  Store.permitted c uid r = true ->
  Store.user_id_of r = uid.
Proof.
  intros Hc H.
  destruct r; try (apply (permitted_owner c); [exact H | discriminate]).
  destruct c; try (exfalso; apply Hc; reflexivity); cbn in H; discriminate.
Qed.

Lemma owner_may_insert (uid : option uuid) (r : Store.row) :
  Store.owned_entity (Store.table_of r) = true ->
  Store.user_id_of r = uid ->
  Store.permitted Store.INSERT uid r = true.
Proof.
  intros Ht <-.
  destruct r; try discriminate Ht; cbn; rewrite String.eqb_refl; reflexivity.
Qed.

Lemma insert_cases (uid : option uuid) (r : Store.row) (d : Store.database) :
  Store.insert uid r d = {| Store.error := None; Store.db := (d ++ [r])%list |}
  \/ (exists e, Store.insert uid r d = Store.failed e d).
Proof.
  unfold Store.insert.
  destruct (negb (Store.permitted Store.INSERT uid r)); [right; eexists; reflexivity|].
  destruct (existsb (Store.collides r) d); [right; eexists; reflexivity|].
  destruct (negb (Store.references_hold r d)); [right; eexists; reflexivity|].
  left; reflexivity.
Qed.

(** A statement that targets no row of the caller changes nothing and
    reports no error. *)
Lemma untargeted (c : Store.command) (uid : option uuid) (t : Store.table) (id : uuid)
  (d : Store.database) :
  c <> Store.SELECT ->
  (forall r, In r d -> Store.table_of r = t -> Store.id_of r = id ->
             Store.user_id_of r <> uid) ->
  forall r, In r d -> Store.targeted c uid t id r = false.
Proof.
  intros Hc Hforeign r Hin.
  unfold Store.targeted.
  destruct (Store.table_beq (Store.table_of r) t) eqn:Ht; [|reflexivity].
  destruct (Store.id_of r =? id)%string eqn:Hid; [|reflexivity].
  destruct (Store.permitted Store.SELECT uid r); [|reflexivity].
  destruct (Store.permitted c uid r) eqn:Hp; [|reflexivity].
  exfalso.
  apply (Hforeign r Hin).
  - apply Store.internal_table_dec_bl; exact Ht.
  - apply string_eqb_true; exact Hid.
  - apply (permitted_write_owner c); assumption.
Qed.

Lemma filter_all {A} (f : A -> bool) (l : list A) :
  (forall x, In x l -> f x = true) -> filter f l = l.
Proof.
  induction l as [|x l IH]; intros H; [reflexivity|].
  cbn. rewrite (H x (or_introl eq_refl)). f_equal. apply IH.
  intros y Hy. apply H. right; exact Hy.
Qed.

Lemma filter_none {A} (f : A -> bool) (l : list A) :
  (forall x, In x l -> f x = false) -> filter f l = [].
Proof.
  induction l as [|x l IH]; intros H; [reflexivity|].
  cbn. rewrite (H x (or_introl eq_refl)). apply IH.
  intros y Hy. apply H. right; exact Hy.
Qed.

Lemma map_unchanged {A} (f : A -> A) (l : list A) :
  (forall x, In x l -> f x = x) -> map f l = l.
Proof.
  induction l as [|x l IH]; intros H; [reflexivity|].
  cbn. rewrite (H x (or_introl eq_refl)). f_equal. apply IH.
  intros y Hy. apply H. right; exact Hy.
Qed.

Lemma set_null_nothing (now : timestamptz) (r : Store.row) :
  Store.on_delete_set_null now [] r = r.
Proof.
  destruct r; try reflexivity.
  cbn. destruct (Interview.application_id r); reflexivity.
Qed.

Lemma delete_untargeted (uid : option uuid) (now : timestamptz) (t : Store.table)
  (id : uuid) (d : Store.database) :
  (forall r, In r d -> Store.targeted Store.DELETE uid t id r = false) ->
  Store.delete uid now t id d = {| Store.error := None; Store.db := d |}.
Proof.
  intros H. unfold Store.delete.
  rewrite (filter_none _ d H).
  rewrite (filter_all (fun r => negb (Store.targeted Store.DELETE uid t id r)) d)
    by (intros x Hx; rewrite (H x Hx); reflexivity).
  replace (if Store.table_beq t Store.applications then map Store.id_of [] else [])
    with (@nil uuid) by (destruct (Store.table_beq t Store.applications); reflexivity).
  rewrite map_unchanged by (intros; apply set_null_nothing).
  reflexivity.
Qed.

Lemma update_untargeted (uid : option uuid) (now : timestamptz) (p : Store.patch)
  (id : uuid) (d : Store.database) :
  (forall r, In r d -> Store.targeted Store.UPDATE uid (Store.patch_table p) id r = false) ->
  Store.update uid now p id d = {| Store.error := None; Store.db := d |}.
Proof.
  intros H. unfold Store.update.
  replace (forallb _ d) with true.
  - rewrite map_unchanged; [reflexivity|].
    intros x Hx. rewrite (H x Hx). reflexivity.
  - symmetry. apply forallb_forall. intros x Hx. rewrite (H x Hx). reflexivity.
Qed.

(* ================================================================= *)
(** ** Ownership of inserted rows *)

(** C1. An insert into one of the six owned tables succeeds only when the
    row's [user_id] is the identity of the authenticated caller, and the row
    is then stored as sent, after the rows already there; an insert whose
    [user_id] differs from the caller's identity (or that comes from an
    anonymous caller) is refused and leaves the database as it was. *)
Theorem C1_insert_owner_is_caller :
  forall (uid : option uuid) (r : Store.row) (d : Store.database),
    Store.owned_entity (Store.table_of r) = true ->
    (Store.error (Store.insert uid r d) = None ->
       Store.user_id_of r = uid /\ Store.db (Store.insert uid r d) = (d ++ [r])%list)
    /\ (Store.user_id_of r <> uid ->
       Store.error (Store.insert uid r d) = Some Store.row_security_violation
       /\ Store.db (Store.insert uid r d) = d).
Proof.
  intros uid r d Ht. split.
  - intros Hok.
    destruct (Store.permitted Store.INSERT uid r) eqn:Hp.
    + split.
      * apply (permitted_write_owner Store.INSERT); [discriminate | exact Hp].
      * destruct (insert_cases uid r d) as [E | [e E]]; rewrite E in *.
        -- reflexivity.
        -- discriminate Hok.
    + unfold Store.insert in Hok. rewrite Hp in Hok. discriminate Hok.
  - intros Hne.
    destruct (Store.permitted Store.INSERT uid r) eqn:Hp.
    + exfalso. apply Hne.
      apply (permitted_write_owner Store.INSERT); [discriminate | exact Hp].
    + unfold Store.insert. rewrite Hp. split; reflexivity.
Qed.

(** C1 on the sample data: Alice may insert her resource into Bob's
    database, Bob may not insert it in her name. *)
Lemma C1_witness :
  (Store.user_id_of (Store.resources_row Sample.alices_resource) = Some "alice"
   /\ Store.db (Store.insert (Some "alice")
                  (Store.resources_row Sample.alices_resource) Sample.bobs_database)
      = (Sample.bobs_database ++ [Store.resources_row Sample.alices_resource])%list)
  /\ (Store.error (Store.insert (Some "bob")
                      (Store.resources_row Sample.alices_resource) Sample.bobs_database)
       = Some Store.row_security_violation
      /\ Store.db (Store.insert (Some "bob")
                      (Store.resources_row Sample.alices_resource) Sample.bobs_database)
         = Sample.bobs_database).
Proof.
  split.
  - apply (C1_insert_owner_is_caller (Some "alice")
             (Store.resources_row Sample.alices_resource) Sample.bobs_database);
      reflexivity.
  - apply (C1_insert_owner_is_caller (Some "bob")
             (Store.resources_row Sample.alices_resource) Sample.bobs_database);
      [reflexivity | discriminate].
Defined.

(** The row [handleAddResource] builds carries the session user as owner,
    so the policy lets it through: the insert can only fail on a used id. *)
Lemma handleAddResource_owner (user : uuid) (f : ResourcesPage.form) (fresh : uuid)
  (now : timestamptz) :
  Store.permitted Store.INSERT (session user)
    (Store.resources_row (ResourcesPage.new_resource user f fresh now)) = true.
Proof. apply owner_may_insert; reflexivity. Qed.

(** The owner's own statements do act: Bob completes and then deletes his
    resource, and the update trigger stamps the completed row. *)
Example bob_completes_his_resource :
  ResourcesPage.toggleComplete "bob" 30 "r1" false Sample.bobs_database
  = (None,
     [Store.resources_row
        (Resource.set_updated_at 30 (Resource.set_is_completed true Sample.bobs_resource))]).
Proof. reflexivity. Qed.

Example bob_deletes_his_resource :
  ResourcesPage.deleteResource "bob" 30 "r1" Sample.bobs_database
  = (toast_success "Resource deleted", []).
Proof. reflexivity. Qed.

(** There is no DELETE policy on [practice_tests]: not even the owner's
    delete removes a test. *)
Example practice_tests_are_kept :
  Store.delete (Some "alice") 30 Store.practice_tests "t1"
    [Store.practice_tests_row Sample.untaken_test]
  = {| Store.error := None; Store.db := [Store.practice_tests_row Sample.untaken_test] |}.
Proof. reflexivity. Qed.

(** A second row with a used id, and an interview of an application that
    does not exist, are refused by the constraints. *)
Example used_id_refused :
  fst (ResourcesPage.handleAddResource "alice"
         {| ResourcesPage.title := "Blind 75"; ResourcesPage.url := "";
            ResourcesPage.category := "DSA"; ResourcesPage.type := "article";
            ResourcesPage.notes := "" |}
         "r1" 40 Sample.bobs_database)
  = toast_error "Failed to add resource".
Proof. reflexivity. Qed.

Example dangling_reference_refused :
  Store.error (Store.insert (Some "alice") (Store.interviews_row Sample.first_round) [])
  = Some Store.foreign_key_violation.
Proof. reflexivity. Qed.

(* ================================================================= *)
(** ** Updates and deletes of rows of other users *)

(** C3 (as stated, refuted). Bob owns resource [r1]. Alice's delete and
    update of [r1] report no error, and the Resources page announces the
    deletion as done: the operation does not fail. *)
Lemma C3_counterexample :
  In (Store.resources_row Sample.bobs_resource) Sample.bobs_database
  /\ Store.user_id_of (Store.resources_row Sample.bobs_resource) <> Some "alice"
  /\ Store.error (Store.delete (Some "alice") 30 Store.resources "r1" Sample.bobs_database)
     = None
  /\ Store.error (Store.update (Some "alice") 30 (Store.is_completed_patch true) "r1"
                    Sample.bobs_database)
     = None
  /\ fst (ResourcesPage.deleteResource "alice" 30 "r1" Sample.bobs_database)
     = toast_success "Resource deleted".
Proof.
  repeat split; try reflexivity.
  - left; reflexivity.
  - discriminate.
Qed.

(** C3 (amended). An update or delete by id whose row belongs to another
    user changes nothing in the database and returns without an error, and
    so does the same call on an id that names no row: the two results are
    equal, so the caller cannot tell a foreign row from an absent one. *)
Theorem C3_foreign_row_as_absent :
  forall (uid : option uuid) (now : timestamptz) (t : Store.table) (id absent : uuid)
         (d : Store.database),
    (forall r, In r d -> Store.table_of r = t -> Store.id_of r = id ->
               Store.user_id_of r <> uid) ->
    (forall r, In r d -> Store.table_of r = t -> Store.id_of r <> absent) ->
    (Store.delete uid now t id d = {| Store.error := None; Store.db := d |}
     /\ Store.delete uid now t id d = Store.delete uid now t absent d)
    /\ (forall p, Store.patch_table p = t ->
          Store.update uid now p id d = {| Store.error := None; Store.db := d |}
          /\ Store.update uid now p id d = Store.update uid now p absent d).
Proof.
  intros uid now t id absent d Hforeign Habsent.
  assert (Hnone : forall r, In r d -> Store.table_of r = t -> Store.id_of r = absent ->
                            Store.user_id_of r <> uid).
  { intros r Hin Ht Hid. exfalso. exact (Habsent r Hin Ht Hid). }
  split.
  - rewrite (delete_untargeted uid now t id d)
      by (apply untargeted; [discriminate | exact Hforeign]).
    rewrite (delete_untargeted uid now t absent d)
      by (apply untargeted; [discriminate | exact Hnone]).
    split; reflexivity.
  - intros p <-.
    rewrite (update_untargeted uid now p id d)
      by (apply untargeted; [discriminate | exact Hforeign]).
    rewrite (update_untargeted uid now p absent d)
      by (apply untargeted; [discriminate | exact Hnone]).
    split; reflexivity.
Qed.

(** C3 on the sample data: Alice's delete of Bob's [r1] and of the
    unused id [r9]. *)
Lemma C3_witness :
  Store.delete (Some "alice") 30 Store.resources "r1" Sample.bobs_database
  = {| Store.error := None; Store.db := Sample.bobs_database |}
  /\ Store.delete (Some "alice") 30 Store.resources "r1" Sample.bobs_database
     = Store.delete (Some "alice") 30 Store.resources "r9" Sample.bobs_database.
Proof.
  apply (C3_foreign_row_as_absent (Some "alice") 30 Store.resources "r1" "r9"
           Sample.bobs_database).
  - intros r [<- | []] _ _. discriminate.
  - intros r [<- | []] _. discriminate.
Defined.

(* ================================================================= *)
(** ** Deleting an application *)

(** What [ON DELETE SET NULL] and the update trigger make of an interview
    when application [id] goes away at time [now]. *)
Lemma set_null_interview (now : timestamptz) (gone : list uuid) (i : Interview.t) :
  Store.on_delete_set_null now gone (Store.interviews_row i)
  = Store.interviews_row
      (match i.(Interview.application_id) with
       | Some a =>
           if existsb (String.eqb a) gone
           then Interview.set_updated_at now (Interview.set_application_id None i)
           else i
       | None => i
       end).
Proof.
  cbn. destruct (Interview.application_id i) as [a|]; [|reflexivity].
  destruct (existsb (String.eqb a) gone); reflexivity.
Qed.

Lemma set_null_other (now : timestamptz) (gone : list uuid) (r : Store.row) :
  Store.table_of r <> Store.interviews ->
  Store.on_delete_set_null now gone r = r.
Proof. destruct r; intros H; try reflexivity. exfalso; apply H; reflexivity. Qed.

Lemma set_null_table (now : timestamptz) (gone : list uuid) (r : Store.row) :
  Store.table_of (Store.on_delete_set_null now gone r) = Store.table_of r.
Proof.
  destruct r; try reflexivity.
  rewrite set_null_interview. reflexivity.
Qed.

(** The rows a caller's [delete ... where id = $id] on [applications] hits. *)
Lemma hit_application (user : uuid) (id : uuid) (r : Store.row) :
  Store.targeted Store.DELETE (Some user) Store.applications id r = true <->
  exists a, r = Store.applications_row a
            /\ a.(Application.id) = id /\ a.(Application.user_id) = user.
Proof.
  split.
  - intros H. destruct r; try discriminate H.
    exists r. unfold Store.targeted in H. cbn in H.
    rewrite !orb_false_r, !andb_true_iff in H.
    destruct H as [[Hid Hs] _].
    apply string_eqb_true in Hid. apply string_eqb_true in Hs.
    repeat split; congruence.
  - intros (a & -> & <- & <-).
    unfold Store.targeted. cbn. rewrite !String.eqb_refl. reflexivity.
Qed.

Lemma gone_ids (user : uuid) (id : uuid) (d : Store.database) (a : Application.t) :
  In (Store.applications_row a) d ->
  a.(Application.id) = id -> a.(Application.user_id) = user ->
  forall x : uuid,
    existsb (String.eqb x)
      (map Store.id_of
         (filter (Store.targeted Store.DELETE (Some user) Store.applications id) d))
    = (x =? id)%string.
Proof.
  intros Hin Hid Huser x.
  destruct (x =? id)%string eqn:E.
  - apply existsb_exists. exists id. split; [|rewrite String.eqb_sym; rewrite String.eqb_sym; exact E].
    apply in_map_iff. exists (Store.applications_row a). split; [exact Hid|].
    apply filter_In. split; [exact Hin|].
    apply hit_application. exists a. auto.
  - apply not_true_is_false. intros H.
    apply existsb_exists in H. destruct H as (y & Hy & Exy).
    apply in_map_iff in Hy. destruct Hy as (r & <- & Hr).
    apply filter_In in Hr. destruct Hr as [_ Hr].
    apply hit_application in Hr. destruct Hr as (b & -> & Hb & _).
    cbn in Exy. rewrite Hb in Exy. congruence.
Qed.

Lemma interviews_after_delete (f : Store.row -> Store.row) (g : Interview.t -> Interview.t)
  (keep : Store.row -> bool) (d : Store.database) :
  (forall i, f (Store.interviews_row i) = Store.interviews_row (g i)) ->
  (forall r, Store.table_of (f r) = Store.table_of r) ->
  (forall i, keep (Store.interviews_row i) = true) ->
  interviews_in (map f (filter keep d)) = map g (interviews_in d).
Proof.
  intros Hf Ht Hkeep.
  induction d as [|r d IH]; [reflexivity|].
  cbn [filter].
  destruct r;
    try (destruct (keep _); [cbn [map]|];
         [ match goal with
           | |- interviews_in (f ?r :: _) = _ =>
               pose proof (Ht r) as Hr; destruct (f r); try discriminate Hr
           end; exact IH
         | exact IH ]).
  rewrite Hkeep. cbn [map]. rewrite Hf. cbn. f_equal. exact IH.
Qed.

Lemma others_after_delete (f : Store.row -> Store.row) (keep : Store.row -> bool)
  (t : Store.table) (d : Store.database) :
  (forall r, Store.table_of r = t -> f r = r /\ keep r = true) ->
  (forall r, Store.table_of (f r) = Store.table_of r) ->
  Store.rows_of t (map f (filter keep d)) = Store.rows_of t d.
Proof.
  intros Hsame Ht. unfold Store.rows_of.
  induction d as [|r d IH]; [reflexivity|].
  cbn [filter].
  destruct (Store.table_beq (Store.table_of r) t) eqn:E.
  - apply Store.internal_table_dec_bl in E.
    destruct (Hsame r E) as [Hf Hk]. rewrite Hk. cbn [map filter].
    rewrite Hf, E, (Store.internal_table_dec_lb _ _ eq_refl). f_equal. exact IH.
  - destruct (keep r); [|exact IH].
    cbn [map filter]. rewrite Ht, E. exact IH.
Qed.

(** C4 (as stated, refuted). Alice deletes her application [a1] at time
    200. The interview that referenced it stays, with [application_id]
    null, but it is not otherwise unchanged: the update trigger of
    [interviews] has moved its [updated_at] from 100 to 200. *)
Lemma C4_counterexample :
  interviews_in (snd (ApplicationsPage.deleteApplication "alice" 200 "a1"
                        Sample.alices_database))
  = [ Interview.set_updated_at 200
        (Interview.set_application_id None Sample.first_round);
      Sample.onsite ]
  /\ Interview.set_updated_at 200 (Interview.set_application_id None Sample.first_round)
     <> Interview.set_application_id None Sample.first_round.
Proof.
  split; [reflexivity | discriminate].
Qed.

(** C4 (amended). When a user deletes one of their applications, every
    interview that referenced it is kept with [application_id] set to null
    and [updated_at] set to the time of the deletion (the update trigger of
    [interviews] fires), all its other columns unchanged; every other
    interview is unchanged; the application leaves [applications]; no other
    table changes; and the page reports success. *)
Theorem C4_delete_application_nulls_references :
  forall (user : uuid) (now : timestamptz) (id : uuid) (d : Store.database)
         (a : Application.t),
    In (Store.applications_row a) d ->
    a.(Application.id) = id ->
    a.(Application.user_id) = user ->
    interviews_in (snd (ApplicationsPage.deleteApplication user now id d))
    = map (fun i =>
             match i.(Interview.application_id) with
             | Some x =>
                 if (x =? id)%string
                 then Interview.set_updated_at now (Interview.set_application_id None i)
                 else i
             | None => i
             end)
          (interviews_in d)
    /\ (forall t, t <> Store.applications -> t <> Store.interviews ->
          Store.rows_of t (snd (ApplicationsPage.deleteApplication user now id d))
          = Store.rows_of t d)
    /\ (forall x,
          In (Store.applications_row x)
             (snd (ApplicationsPage.deleteApplication user now id d))
          <-> In (Store.applications_row x) d
              /\ ~ (x.(Application.id) = id /\ x.(Application.user_id) = user))
    /\ fst (ApplicationsPage.deleteApplication user now id d)
       = toast_success "Application deleted".
Proof.
  intros user now id d a Hin Hid Huser.
  unfold ApplicationsPage.deleteApplication, Store.delete, session.
  cbn [Store.error Store.db fst snd Store.table_beq].
  set (hit := Store.targeted Store.DELETE (Some user) Store.applications id).
  set (gone := map Store.id_of (filter hit d)).
  assert (Hgone : forall x, existsb (String.eqb x) gone = (x =? id)%string)
    by (intros x; apply (gone_ids user id d a); assumption).
  assert (Hhit : forall r, Store.table_of r <> Store.applications -> hit r = false).
  { intros r Hr. apply not_true_is_false. intros H.
    apply hit_application in H. destruct H as (b & -> & _). apply Hr. reflexivity. }
  split; [|split; [|split; [|reflexivity]]].
  - apply interviews_after_delete.
    + intros i. rewrite set_null_interview.
      destruct (Interview.application_id i) as [x|]; [rewrite Hgone|]; reflexivity.
    + intros r. apply set_null_table.
    + intros i. rewrite Hhit; [reflexivity | discriminate].
  - intros t Happ Hint. apply others_after_delete.
    + intros r Hr. split.
      * apply set_null_other. congruence.
      * rewrite Hhit; [reflexivity | congruence].
    + intros r. apply set_null_table.
  - intros x. split.
    + intros H. apply in_map_iff in H. destruct H as (r & Hr & Hkeep).
      apply filter_In in Hkeep. destruct Hkeep as [Hd Hk].
      destruct r; try (rewrite set_null_other in Hr by discriminate; discriminate Hr).
      * rewrite set_null_other in Hr by discriminate. inversion Hr; subst r.
        split; [exact Hd|].
        intros [Hx Hu].
        assert (Hx' : hit (Store.applications_row x) = true)
          by (apply hit_application; exists x; auto).
        rewrite Hx' in Hk. discriminate Hk.
      * rewrite set_null_interview in Hr. discriminate Hr.
    + intros [Hd Hnot]. apply in_map_iff. exists (Store.applications_row x). split.
      * apply set_null_other. discriminate.
      * apply filter_In. split; [exact Hd|].
        destruct (hit (Store.applications_row x)) eqn:E; [|reflexivity].
        exfalso. apply Hnot. apply hit_application in E.
        destruct E as (b & Hb & Hbi & Hbu). inversion Hb; subst b. auto.
Qed.

(** C4 on the sample data: Alice deletes [a1] at time 200. *)
Lemma C4_witness :
  interviews_in (snd (ApplicationsPage.deleteApplication "alice" 200 "a1"
                        Sample.alices_database))
  = map (fun i =>
           match i.(Interview.application_id) with
           | Some x =>
               if (x =? "a1")%string
               then Interview.set_updated_at 200 (Interview.set_application_id None i)
               else i
           | None => i
           end)
        (interviews_in Sample.alices_database).
Proof.
  apply (C4_delete_application_nulls_references "alice" 200 "a1"
           Sample.alices_database Sample.acme).
  - left; reflexivity.
  - reflexivity.
  - reflexivity.
Defined.

(* ================================================================= *)
(** ** Completion ratios *)

(** The relay guards its division: a category with [total = 0] is
    reported as 0 percent, whatever [completed] is. *)
Lemma relay_percentage_zero_total (c : string) (n : Z) :
  Relay.percentage {| Relay.category := c; Relay.total := 0; Relay.completed := n |}
  = JS.Int 0.
Proof. reflexivity. Qed.

(** So do the Roadmap page and the Dashboard for the roadmap progress. *)
Lemma roadmap_progress_empty : RoadmapPage.progress [] = JS.Int 0.
Proof. reflexivity. Qed.

Lemma dashboard_progress_empty (user : uuid) (now : timestamptz) (random : JS.entropy) :
  DashboardPage.roadmapProgress (DashboardPage.fetchStats user now random []) = JS.Int 0.
Proof. reflexivity. Qed.

(** C2. The score of the Test History tab is computed without the guard.
    A practice test with [total_questions = 0] (the column default) can be
    stored and is listed, and its score is not 0 but NaN, shown as [NaN%]. *)
Theorem C2_practice_score_of_empty_test :
  PracticePage.fetchTests (Some "alice")
    (Store.db (Store.insert (Some "alice")
                 (Store.practice_tests_row Sample.untaken_test) []))
  = [Sample.untaken_test]
  /\ PracticePage.score Sample.untaken_test = JS.NaN
  /\ PracticePage.score_text Sample.untaken_test = "NaN%".
Proof. repeat split; vm_compute; reflexivity. Qed.

(* ================================================================= *)
(** ** The outcome histogram *)

Lemma lookup_assign {A} (k key : string) (v : A) (o : JS.dict A) :
  JS.lookup k (JS.assign key v o)
  = if (key =? k)%string then Some v else JS.lookup k o.
Proof.
  induction o as [|[k' x] o IH]; cbn.
  - destruct (key =? k)%string; reflexivity.
  - destruct (k' =? key)%string eqn:E; cbn.
    + apply string_eqb_true in E. subst k'.
      destruct (key =? k)%string; reflexivity.
    + destruct (k' =? k)%string eqn:E'.
      * apply string_eqb_true in E'. subst k'.
        rewrite String.eqb_sym, E. reflexivity.
      * exact IH.
Qed.

Lemma lookup_count_one (k key : string) (o : JS.dict Z) :
  JS.lookup k (count_one o key)
  = if (key =? k)%string then Some (JS.or_zero (JS.lookup k o) + 1) else JS.lookup k o.
Proof.
  unfold count_one. rewrite lookup_assign.
  destruct (key =? k)%string eqn:E; [|reflexivity].
  apply string_eqb_true in E. subst key. reflexivity.
Qed.

Lemma lookup_counts (k : string) (outcomes : list (option string)) (o : JS.dict Z) :
  JS.lookup k (fold_left (fun acc x => count_one acc (AnalyticsPage.outcome_key x)) outcomes o)
  = match occurrences k outcomes with
    | O => JS.lookup k o
    | S n => Some (JS.or_zero (JS.lookup k o) + Z.of_nat (S n))
    end.
Proof.
  revert o. unfold occurrences.
  induction outcomes as [|x l IH]; intros o; [reflexivity|].
  cbn [fold_left filter]. rewrite IH, lookup_count_one.
  destruct (AnalyticsPage.outcome_key x =? k)%string; cbn [List.length].
  - destruct (List.length _) as [|n]; cbn [JS.or_zero]; f_equal; lia.
  - reflexivity.
Qed.

Lemma lookup_in {A} (k : string) (v : A) (o : JS.dict A) :
  JS.lookup k o = Some v -> In (k, v) o.
Proof.
  induction o as [|[k' x] o IH]; cbn; [discriminate|].
  destruct (k' =? k)%string eqn:E.
  - apply string_eqb_true in E. intros [= ->]. left. congruence.
  - intros H. right. exact (IH H).
Qed.

Lemma named_entry {A} (k : string) (v : A) (o : JS.dict A) :
  JS.array_index k = None -> In (k, v) o -> In (k, v) (JS.entries o).
Proof.
  intros Hk Hin. unfold JS.entries. apply in_or_app. right.
  apply filter_In. split; [exact Hin|]. cbn. rewrite Hk. reflexivity.
Qed.

Lemma occurrences_null (before after : list (option string)) :
  occurrences "Pending" (before ++ None :: after)%list
  = S (occurrences "Pending" (before ++ after)%list).
Proof.
  unfold occurrences. rewrite !filter_app, !length_app. cbn. lia.
Qed.

(** C5. The outcomes [Passed, Passed, Failed, null] are counted as
    Passed 2, Failed 1, Pending 1; and in any list of outcomes a null
    outcome adds one to the Pending bucket, which the histogram carries
    with the number of outcomes that are null, empty or Pending. *)
Theorem C5_null_outcome_counts_as_pending :
  AnalyticsPage.outcome_histogram [Some "Passed"; Some "Passed"; Some "Failed"; None]
  = [ {| Relay.outcome := "Passed"; Relay.count := 2 |};
      {| Relay.outcome := "Failed"; Relay.count := 1 |};
      {| Relay.outcome := "Pending"; Relay.count := 1 |} ]
  /\ (forall before after : list (option string),
        JS.or_zero (JS.lookup "Pending"
                      (AnalyticsPage.outcomeCounts (before ++ None :: after)%list))
        = JS.or_zero (JS.lookup "Pending"
                        (AnalyticsPage.outcomeCounts (before ++ after)%list)) + 1)
  /\ (forall before after : list (option string),
        In {| Relay.outcome := "Pending";
              Relay.count := Z.of_nat (occurrences "Pending" (before ++ None :: after)%list) |}
           (AnalyticsPage.outcome_histogram (before ++ None :: after)%list)).
Proof.
  split; [reflexivity|]. split.
  - intros before after. unfold AnalyticsPage.outcomeCounts.
    rewrite !lookup_counts, occurrences_null.
    destruct (occurrences "Pending" (before ++ after)%list); cbn [JS.lookup JS.or_zero]; lia.
  - intros before after. unfold AnalyticsPage.outcome_histogram.
    apply in_map_iff.
    exists ("Pending", Z.of_nat (occurrences "Pending" (before ++ None :: after)%list)).
    split; [reflexivity|].
    apply named_entry; [reflexivity|].
    apply lookup_in. unfold AnalyticsPage.outcomeCounts.
    rewrite lookup_counts, occurrences_null. cbn [JS.lookup JS.or_zero]. f_equal.
Qed.

(* ================================================================= *)
(** ** Upcoming and past interviews *)

(** Within one instant [now] of the clock, the two views are the
    interviews strictly after and strictly before [now]. *)
Lemma filter_reading_fixed (now : timestamptz) (k : nat)
  (test : timestamptz -> timestamptz -> bool) (l : list Interview.t) :
  InterviewsPage.filter_reading (fun _ => now) k test l
  = filter (fun i => test now i.(Interview.interview_date)) l.
Proof.
  revert k. induction l as [|i l IH]; intros k; [reflexivity|].
  cbn. rewrite IH. reflexivity.
Qed.

Lemma views_at_fixed_time (now : timestamptz) (l : list Interview.t) :
  InterviewsPage.upcomingInterviews (fun _ => now) l
  = filter (fun i => now <? i.(Interview.interview_date)) l
  /\ InterviewsPage.pastInterviews (fun _ => now) l
     = filter (fun i => i.(Interview.interview_date) <? now) l.
Proof.
  unfold InterviewsPage.upcomingInterviews, InterviewsPage.pastInterviews.
  rewrite !filter_reading_fixed. split; reflexivity.
Qed.

(** An interview that is not at the very instant [now] is in exactly one
    of the two views. *)
Lemma one_view_off_the_instant (now : timestamptz) (l : list Interview.t) (i : Interview.t) :
  In i l -> i.(Interview.interview_date) <> now ->
  (In i (InterviewsPage.upcomingInterviews (fun _ => now) l)
   /\ ~ In i (InterviewsPage.pastInterviews (fun _ => now) l))
  \/ (In i (InterviewsPage.pastInterviews (fun _ => now) l)
      /\ ~ In i (InterviewsPage.upcomingInterviews (fun _ => now) l)).
Proof.
  intros Hin Hne.
  destruct (views_at_fixed_time now l) as [-> ->].
  destruct (Z.lt_total now (Interview.interview_date i)) as [H | [H | H]].
  - left. split.
    + apply filter_In. split; [exact Hin | apply Z.ltb_lt; exact H].
    + intros H'. apply filter_In in H'. destruct H' as [_ H'].
      apply Z.ltb_lt in H'. lia.
  - congruence.
  - right. split.
    + apply filter_In. split; [exact Hin | apply Z.ltb_lt; exact H].
    + intros H'. apply filter_In in H'. destruct H' as [_ H'].
      apply Z.ltb_lt in H'. lia.
Qed.

(** When the clock moves on between the two filters, an interview can
    even be shown in both views. *)
Example interview_in_both_views :
  InterviewsPage.upcomingInterviews (fun k => if (k <? 1)%nat then 999 else 1001)
    [Sample.first_round] = [Sample.first_round]
  /\ InterviewsPage.pastInterviews (fun k => if (k <? 1)%nat then 999 else 1001)
       [Sample.first_round] = [Sample.first_round].
Proof. split; reflexivity. Qed.

(** C6. Alice's interview [i1] is at instant 1000. When the page renders
    at that instant the interview is fetched but is in neither view: it is
    not past, although its date is not after now. (The Dashboard counts the
    same interview as upcoming.) *)
Theorem C6_interview_at_current_instant :
  In Sample.first_round (InterviewsPage.fetchInterviews "alice" Sample.alices_database)
  /\ InterviewsPage.upcomingInterviews (fun _ => 1000)
       (InterviewsPage.fetchInterviews "alice" Sample.alices_database)
     = [Sample.onsite]
  /\ InterviewsPage.pastInterviews (fun _ => 1000)
       (InterviewsPage.fetchInterviews "alice" Sample.alices_database)
     = []
  /\ DashboardPage.upcomingInterviews
       (DashboardPage.fetchStats "alice" 1000 (fun _ => PrimFloat.zero)
          Sample.alices_database)
     = 2.
Proof.
  split; [left; reflexivity|]. repeat split; vm_compute; reflexivity.
Qed.

(* ================================================================= *)
(** ** The order of the roadmap *)



Section OrderBy.
Context {A : Type} (le : A -> A -> bool).
Hypothesis le_total : forall a b, le a b = true \/ le b a = true.

Lemma place_sorted (x : A) (l : list A) :
  Sorted (fun a b => le a b = true) l ->
  Sorted (fun a b => le a b = true) (place le x l).
Proof.
  induction 1 as [|y l Hs IH Hhd]; cbn.
  - repeat constructor.
  - destruct (le x y) eqn:E.
    + constructor; [constructor; assumption | constructor; exact E].
    + constructor; [exact IH|].
      destruct l as [|z l]; cbn.
      * constructor. destruct (le_total x y); congruence.
      * destruct (le x z).
        -- constructor. destruct (le_total x y); congruence.
        -- constructor. inversion Hhd; assumption.
Qed.

Lemma order_by_sorted (l : list A) :
  Sorted (fun a b => le a b = true) (order_by le l).
Proof.
  induction l as [|x l IH]; cbn; [constructor | apply place_sorted; exact IH].
Qed.

Lemma place_permutation (x : A) (l : list A) : Permutation (x :: l) (place le x l).
Proof.
  induction l as [|y l IH]; cbn; [reflexivity|].
  destruct (le x y); [reflexivity|].
  rewrite perm_swap. constructor. exact IH.
Qed.

Lemma order_by_permutation (l : list A) : Permutation l (order_by le l).
Proof.
  induction l as [|x l IH]; cbn; [constructor|].
  rewrite <- place_permutation. constructor. exact IH.
Qed.

End OrderBy.


(** C7. Alice has three items in week 1, of priority high, medium and
    low. The page lists them medium, low, high: the descending order of
    the priority column is the order of its text, in which high comes
    last, not first. *)
Theorem C7_roadmap_priority_order :
  RoadmapPage.fetchItems "alice" Sample.alices_roadmap
  = [ Sample.roadmap_item "heaps" "medium" (Some 1);
      Sample.roadmap_item "tries" "low" (Some 1);
      Sample.roadmap_item "graphs" "high" (Some 1) ].
Proof. vm_compute. reflexivity. Qed.

(* ================================================================= *)
(** ** The relay *)

Lemma not_options (m : string) : m <> "OPTIONS" -> (m =? "OPTIONS")%string = false.
Proof. intros H. apply String.eqb_neq. exact H. Qed.

(** The relay looks at the payload through [build_context] only. *)
Lemma serve_by_context (key : option string) (ai : Relay.backend) (m : string)
  (p q : Relay.payload) :
  Relay.build_context p = Relay.build_context q ->
  Relay.serve key ai {| Relay.method := m; Relay.json := Relay.JsonFields p |}
  = Relay.serve key ai {| Relay.method := m; Relay.json := Relay.JsonFields q |}.
Proof.
  intros H. unfold Relay.serve, Relay.attempt. cbn [Relay.method Relay.json].
  rewrite H. reflexivity.
Qed.

Lemma context_absent_as_empty (p : Relay.payload) :
  Relay.build_context p = Relay.build_context (absent_as_empty p).
Proof.
  destruct p as [[rs|] [os|] [n|]]; reflexivity.
Qed.

(** The reply to a call whose backend completed normally. *)
Lemma suggestions_text (c : option JS.value) :
  match c with
  | None | Some JS.Null | Some (JS.Str _) => True
  | _ => False
  end ->
  exists s, s <> "" /\ JS.or_else c (JS.Str Relay.fallback) = JS.Str s.
Proof.
  destruct c as [[| | |s| |]|]; intros H; try contradiction.
  - exists Relay.fallback. split; [discriminate | reflexivity].
  - destruct s as [|a s].
    + exists Relay.fallback. split; [discriminate | reflexivity].
    + exists (String a s). split; [discriminate | reflexivity].
  - exists Relay.fallback. split; [discriminate | reflexivity].
Qed.

(** C8. For a call that carries a JSON object (any of the three fields
    may be missing): without the credential the relay answers 500 with its
    configuration error; when the backend answers non-success it answers 500
    with its upstream error; its answer is the one it gives when the
    missing fields are sent as empty; and the call with no categories, no
    outcomes and zero applications gets, from a backend that completes
    normally, status 200 and a non-empty [suggestions] string. *)
Theorem C8_relay_failures_and_tolerance :
  forall (ai : Relay.backend) (m : string) (p : Relay.payload),
    m <> "OPTIONS" ->
    (Relay.serve None ai {| Relay.method := m; Relay.json := Relay.JsonFields p |}
     = configuration_error
     /\ Relay.serve (Some "") ai {| Relay.method := m; Relay.json := Relay.JsonFields p |}
        = configuration_error)
    /\ (forall key text parsed,
          key <> "" ->
          ai (Relay.completion_for key (Relay.build_context p))
          = Relay.Resolved false text parsed ->
          Relay.serve (Some key) ai {| Relay.method := m; Relay.json := Relay.JsonFields p |}
          = upstream_error)
    /\ (forall key,
          Relay.serve key ai {| Relay.method := m; Relay.json := Relay.JsonFields p |}
          = Relay.serve key ai
              {| Relay.method := m; Relay.json := Relay.JsonFields (absent_as_empty p) |})
    /\ (forall key,
          key <> "" ->
          completed_normally
            (ai (Relay.completion_for key (Relay.build_context empty_payload))) = true ->
          exists s,
            s <> ""
            /\ Relay.serve (Some key) ai
                 {| Relay.method := m; Relay.json := Relay.JsonFields empty_payload |}
               = {| Relay.status := 200;
                    Relay.content := Relay.Suggestions (JS.Str s) |}).
Proof.
  intros ai m p Hm. apply not_options in Hm.
  split; [|split; [|split]].
  - unfold Relay.serve. cbn [Relay.method]. rewrite Hm. split; reflexivity.
  - intros key text parsed Hkey Hai.
    unfold Relay.serve, Relay.attempt. cbn [Relay.method Relay.json]. rewrite Hm.
    destruct key as [|a key]; [contradiction Hkey; reflexivity|].
    rewrite Hai. reflexivity.
  - intros key. apply serve_by_context. apply context_absent_as_empty.
  - intros key Hkey Hai.
    unfold Relay.serve, Relay.attempt. cbn [Relay.method Relay.json]. rewrite Hm.
    destruct key as [|a key]; [contradiction Hkey; reflexivity|].
    unfold completed_normally in Hai.
    destruct (ai _) as [|[|] text [result|]]; try discriminate Hai.
    destruct (Relay.generated result) as [e|c]; [discriminate Hai|].
    destruct (suggestions_text c) as (s & Hs & E).
    + destruct c as [[| | | | |]|]; try discriminate Hai; exact I.
    + exists s. split; [exact Hs|]. rewrite E. reflexivity.
Qed.

(** C8 on the sample backends, for the call with nothing to report. *)
Lemma C8_witness :
  Relay.serve (Some "secret") Sample.failing_backend
    {| Relay.method := "POST"; Relay.json := Relay.JsonFields empty_payload |}
  = upstream_error
  /\ exists s,
       s <> ""
       /\ Relay.serve (Some "secret") Sample.answering_backend
            {| Relay.method := "POST"; Relay.json := Relay.JsonFields empty_payload |}
          = {| Relay.status := 200; Relay.content := Relay.Suggestions (JS.Str s) |}.
Proof.
  split.
  - apply (C8_relay_failures_and_tolerance Sample.failing_backend "POST" empty_payload
             ltac:(discriminate))
      with (text := "quota exceeded") (parsed := @None JS.value);
      [discriminate | reflexivity].
  - apply (C8_relay_failures_and_tolerance Sample.answering_backend "POST" empty_payload
             ltac:(discriminate));
      [discriminate | reflexivity].
Defined.

(** What lies outside the tolerance: a body that is not JSON, or is the
    JSON null, is answered with status 500, before the credential is even
    looked at. *)
Lemma serve_rejects_other_bodies (key : option string) (ai : Relay.backend) :
  Relay.serve key ai {| Relay.method := "POST"; Relay.json := Relay.NotJson |}
  = {| Relay.status := 500; Relay.content := Relay.Failure JS.SyntaxError |}
  /\ Relay.serve key ai {| Relay.method := "POST"; Relay.json := Relay.JsonNull |}
     = {| Relay.status := 500; Relay.content := Relay.Failure JS.TypeError |}.
Proof. split; reflexivity. Qed.

(** C10. With [applicationCount] 0 the context has no Total Applications
    part: it is the context of the same call without the field, the backend
    is sent the same request, and the relay gives the same answer. *)
Theorem C10_zero_application_count_as_absent :
  forall (rs : option (list Relay.category_stat)) (os : option (list Relay.outcome_count)),
    Relay.applications_block (Some 0) = ""
    /\ Relay.build_context
         {| Relay.resourcesByCategory := rs; Relay.interviewOutcomes := os;
            Relay.applicationCount := Some 0 |}
       = Relay.build_context
           {| Relay.resourcesByCategory := rs; Relay.interviewOutcomes := os;
              Relay.applicationCount := None |}
    /\ (forall key ai m,
          Relay.serve key ai
            {| Relay.method := m;
               Relay.json := Relay.JsonFields
                 {| Relay.resourcesByCategory := rs; Relay.interviewOutcomes := os;
                    Relay.applicationCount := Some 0 |} |}
          = Relay.serve key ai
              {| Relay.method := m;
                 Relay.json := Relay.JsonFields
                   {| Relay.resourcesByCategory := rs; Relay.interviewOutcomes := os;
                      Relay.applicationCount := None |} |}).
Proof.
  intros rs os.
  split; [reflexivity|]. split; [reflexivity|].
  intros key ai m. apply serve_by_context. reflexivity.
Qed.

(** Any other count is written out. *)
Lemma applications_block_nonzero (n : Z) :
  n <> 0 ->
  Relay.applications_block (Some n)
  = "**Total Applications:** " ++ JS.decimal n ++ nl ++ nl.
Proof.
  intros H. unfold Relay.applications_block.
  destruct (n =? 0) eqn:E; [apply Z.eqb_eq in E; contradiction | reflexivity].
Qed.

(** The Analytics page sends count 0 when the user has no application. *)
Lemma no_applications_sent_as_zero (ml : date -> string) (user : uuid) (random : JS.entropy) :
  Relay.applicationCount
    (AnalyticsPage.suggestions_request (Some (AnalyticsPage.fetchAnalytics ml user random [])))
  = Some 0.
Proof. reflexivity. Qed.

(* ================================================================= *)
(** ** The weekly series *)

(** C9. The weekly series of the Dashboard and of the Analytics page are
    the same whatever the user, the time and the stored rows are, once the
    draws of [Math.random] are fixed; and there are two runs, with draws in
    [0, 1), that give different series on every database. *)
Theorem C9_weekly_series_ignore_the_rows :
  (forall user user' now now' random d d',
      DashboardPage.weeklyProgress (DashboardPage.fetchStats user now random d)
      = DashboardPage.weeklyProgress (DashboardPage.fetchStats user' now' random d'))
  /\ (forall ml ml' user user' random d d',
        AnalyticsPage.progressOverTime (AnalyticsPage.fetchAnalytics ml user random d)
        = AnalyticsPage.progressOverTime (AnalyticsPage.fetchAnalytics ml' user' random d'))
  /\ (exists random random' : JS.entropy,
        (forall k, JS.in_unit_interval (random k) = true)
        /\ (forall k, JS.in_unit_interval (random' k) = true)
        /\ (forall user now d,
              DashboardPage.weeklyProgress (DashboardPage.fetchStats user now random d)
              <> DashboardPage.weeklyProgress (DashboardPage.fetchStats user now random' d))
        /\ (forall ml user d,
              AnalyticsPage.progressOverTime (AnalyticsPage.fetchAnalytics ml user random d)
              <> AnalyticsPage.progressOverTime
                   (AnalyticsPage.fetchAnalytics ml user random' d))).
Proof.
  split; [reflexivity|]. split; [reflexivity|].
  exists Sample.low_draws, Sample.middle_draws.
  split; [reflexivity|]. split; [reflexivity|].
  split.
  - intros user now d. cbn [DashboardPage.weeklyProgress DashboardPage.fetchStats].
    vm_compute. discriminate.
  - intros ml user d. cbn [AnalyticsPage.progressOverTime AnalyticsPage.fetchAnalytics].
    vm_compute. discriminate.
Qed.

(* ================================================================= *)
(** * Further properties of the store *)

(** ** Who can read and write what *)

Lemma owner_may_select (uid : option uuid) (r : Store.row) :
  Store.table_of r <> Store.past_questions ->
  Store.user_id_of r = uid ->
  Store.permitted Store.SELECT uid r = true.
Proof.
  intros Ht <-.
  destruct r; try (exfalso; apply Ht; reflexivity);
    cbn; rewrite String.eqb_refl; reflexivity.
Qed.

Lemma in_rows_of (t : Store.table) (d : Store.database) (r : Store.row) :
  In r (Store.rows_of t d) <-> In r d /\ Store.table_of r = t.
Proof.
  unfold Store.rows_of. rewrite filter_In. split.
  - intros [H E]. split; [exact H | apply Store.internal_table_dec_bl; exact E].
  - intros [H E]. split; [exact H | apply Store.internal_table_dec_lb; exact E].
Qed.

Lemma select_own_rows (uid : option uuid) (t : Store.table) (d : Store.database)
  (r : Store.row) :
  t <> Store.past_questions ->
  (In r (Store.select uid t d)
   <-> In r d /\ Store.table_of r = t /\ Store.user_id_of r = uid).
Proof.
  intros Ht. unfold Store.select. rewrite filter_In, in_rows_of. split.
  - intros [[Hin Hx] Hp]. repeat split; try assumption.
    apply (permitted_owner Store.SELECT); [exact Hp | congruence].
  - intros (Hin & Hx & Hu). repeat split; try assumption.
    apply owner_may_select; congruence.
Qed.

(** A query on any table but the question bank returns exactly the rows of
    that table whose [user_id] is the caller; an anonymous caller gets
    nothing. *)
Theorem select_exactly_own_rows :
  forall (uid : option uuid) (t : Store.table) (d : Store.database) (r : Store.row),
    t <> Store.past_questions ->
    (In r (Store.select uid t d)
     <-> In r d /\ Store.table_of r = t /\ Store.user_id_of r = uid)
    /\ Store.select None t d = [].
Proof.
  intros uid t d r Ht.
  split; [apply select_own_rows; exact Ht|].
  destruct (Store.select None t d) as [|x l] eqn:E; [reflexivity|].
  assert (Hx : In x (Store.select None t d)) by (rewrite E; left; reflexivity).
  apply select_own_rows in Hx; [|exact Ht]. destruct Hx as (_ & Hx & Hu).
  destruct x; cbn in Hu; try discriminate Hu.
  exfalso. apply Ht. symmetry. exact Hx.
Qed.

Lemma select_exactly_own_rows_witness :
  In (Store.interviews_row Sample.onsite)
     (Store.select (Some "alice") Store.interviews Sample.alices_database)
  /\ Store.select (Some "alice") Store.resources Sample.alices_database = []
  /\ Store.select None Store.applications Sample.alices_database = [].
Proof.
  split; [|split].
  - apply (select_exactly_own_rows (Some "alice") Store.interviews Sample.alices_database
             (Store.interviews_row Sample.onsite)); [discriminate|].
    split; [right; right; left; reflexivity | split; reflexivity].
  - reflexivity.
  - apply (select_exactly_own_rows None Store.applications Sample.alices_database
             (Store.applications_row Sample.acme)). discriminate.
Defined.

(** The question bank is public and read-only: every caller, signed in or
    not, reads all of it, nobody can insert into it, and a delete leaves it
    as it is. *)
Theorem question_bank_public_and_read_only :
  forall (uid : option uuid) (now : timestamptz) (id : uuid) (q : PastQuestion.t)
         (d : Store.database),
    Store.select uid Store.past_questions d = Store.rows_of Store.past_questions d
    /\ Store.insert uid (Store.past_questions_row q) d
       = Store.failed Store.row_security_violation d
    /\ Store.delete uid now Store.past_questions id d
       = {| Store.error := None; Store.db := d |}.
Proof.
  intros uid now id q d. split; [|split].
  - unfold Store.select. apply filter_all. intros x Hx.
    apply in_rows_of in Hx. destruct Hx as [_ Hx].
    destruct x; try discriminate Hx. reflexivity.
  - reflexivity.
  - apply delete_untargeted. intros r _. unfold Store.targeted.
    destruct r; try reflexivity.
    cbn. rewrite !andb_false_r. reflexivity.
Qed.

(** Practice tests and profiles have no DELETE policy: a delete on these
    tables removes nothing, not even for the owner of the row. *)
Theorem tests_and_profiles_never_deleted :
  forall (uid : option uuid) (now : timestamptz) (t : Store.table) (id : uuid)
         (d : Store.database),
    t = Store.practice_tests \/ t = Store.profiles ->
    Store.delete uid now t id d = {| Store.error := None; Store.db := d |}.
Proof.
  intros uid now t id d Ht.
  apply delete_untargeted. intros r _. unfold Store.targeted.
  destruct (Store.table_beq (Store.table_of r) t) eqn:E; [|reflexivity].
  apply Store.internal_table_dec_bl in E.
  replace (Store.permitted Store.DELETE uid r) with false;
    [rewrite andb_false_r; reflexivity|].
  destruct Ht; subst t; destruct r; try discriminate E; reflexivity.
Qed.

Lemma tests_and_profiles_never_deleted_witness :
  Store.delete (Some "alice") 30 Store.practice_tests "t1"
    [Store.practice_tests_row Sample.untaken_test]
  = {| Store.error := None; Store.db := [Store.practice_tests_row Sample.untaken_test] |}.
Proof.
  apply (tests_and_profiles_never_deleted (Some "alice") 30 Store.practice_tests "t1").
  left. reflexivity.
Defined.

(** ** The constraints are kept *)

Lemma collides_sym (r x : Store.row) : Store.collides r x = Store.collides x r.
Proof.
  unfold Store.collides.
  destruct r, x; cbn; try reflexivity;
    rewrite (String.eqb_sym (_ r0)); try reflexivity.
  rewrite (String.eqb_sym (Profile.user_id r)). reflexivity.
Qed.

(** Row transformations that leave the table and the keys alone. *)
Section KeyPreserving.
Variable g : Store.row -> Store.row.
Hypothesis g_left : forall r x, Store.collides (g r) x = Store.collides r x.
Hypothesis g_right : forall r x, Store.collides r (g x) = Store.collides r x.

Lemma keys_distinct_map (d : Store.database) :
  keys_distinct d -> keys_distinct (map g d).
Proof.
  induction d as [|r d IH]; cbn; [trivial|].
  intros [Hr Hd]. split; [|exact (IH Hd)].
  apply Forall_map. revert Hr. apply Forall_impl.
  intros x Hx. rewrite g_left, g_right. exact Hx.
Qed.

End KeyPreserving.

Lemma keys_distinct_filter (keep : Store.row -> bool) (d : Store.database) :
  keys_distinct d -> keys_distinct (filter keep d).
Proof.
  induction d as [|r d IH]; cbn; [trivial|].
  intros [Hr Hd]. destruct (keep r); cbn; [split|]; try exact (IH Hd).
  apply Forall_forall. intros x Hx. apply filter_In in Hx.
  rewrite Forall_forall in Hr. apply Hr. tauto.
Qed.

Lemma keys_distinct_snoc (d : Store.database) (r : Store.row) :
  keys_distinct d -> existsb (Store.collides r) d = false -> keys_distinct (d ++ [r])%list.
Proof.
  induction d as [|x d IH]; cbn.
  - intros _ _. split; [constructor | trivial].
  - intros [Hx Hd] Hr. apply orb_false_iff in Hr. destruct Hr as [Hrx Hr].
    split; [|exact (IH Hd Hr)].
    apply Forall_app. split; [exact Hx|].
    constructor; [|constructor]. rewrite collides_sym. exact Hrx.
Qed.

Lemma collides_before_update (now : timestamptz) (r x : Store.row) :
  Store.collides (Store.before_update now r) x = Store.collides r x
  /\ Store.collides r (Store.before_update now x) = Store.collides r x.
Proof. split; destruct r, x; reflexivity. Qed.

Lemma collides_apply_patch (p : Store.patch) (r x : Store.row) :
  Store.collides (Store.apply_patch p r) x = Store.collides r x
  /\ Store.collides r (Store.apply_patch p x) = Store.collides r x.
Proof. split; destruct p, r, x; reflexivity. Qed.

Lemma collides_set_null (now : timestamptz) (gone : list uuid) (r x : Store.row) :
  Store.collides (Store.on_delete_set_null now gone r) x = Store.collides r x
  /\ Store.collides r (Store.on_delete_set_null now gone x) = Store.collides r x.
Proof.
  split.
  - destruct r; try reflexivity. rewrite set_null_interview.
    destruct (Interview.application_id r) as [a|];
      [destruct (existsb (String.eqb a) gone)|]; destruct x; reflexivity.
  - destruct x; try reflexivity. rewrite set_null_interview.
    destruct (Interview.application_id r0) as [a|];
      [destruct (existsb (String.eqb a) gone)|]; destruct r; reflexivity.
Qed.

(** What a row keeps through an update: its table, its id, the
    application it refers to. *)
Lemma revise_keeps (now : timestamptz) (p : Store.patch) (r : Store.row) :
  Store.table_of (Store.revise now p r) = Store.table_of r
  /\ Store.id_of (Store.revise now p r) = Store.id_of r
  /\ referenced_application (Store.revise now p r) = referenced_application r.
Proof. destruct p, r; repeat split; reflexivity. Qed.

Lemma set_null_id (now : timestamptz) (gone : list uuid) (r : Store.row) :
  Store.id_of (Store.on_delete_set_null now gone r) = Store.id_of r.
Proof.
  destruct r; try reflexivity. rewrite set_null_interview.
  destruct (Interview.application_id r) as [a|];
    [destruct (existsb (String.eqb a) gone)|]; reflexivity.
Qed.

Lemma set_null_referenced (now : timestamptz) (gone : list uuid) (r : Store.row) (a : uuid) :
  referenced_application (Store.on_delete_set_null now gone r) = Some a ->
  referenced_application r = Some a /\ existsb (String.eqb a) gone = false.
Proof.
  destruct r; try discriminate. rewrite set_null_interview. cbn.
  destruct (Interview.application_id r) as [x|] eqn:E; [|rewrite E; discriminate].
  destruct (existsb (String.eqb x) gone) eqn:G; cbn; [discriminate|].
  rewrite E. intros [= ->]. split; [reflexivity | exact G].
Qed.

Lemma references_hold_iff (r : Store.row) (d : Store.database) :
  Store.references_hold r d = true <->
  (forall a, referenced_application r = Some a ->
             exists x, In x d /\ Store.table_of x = Store.applications
                       /\ Store.id_of x = a).
Proof.
  destruct r; cbn; try (split; [intros _ a H; discriminate H | reflexivity]).
  destruct (Interview.application_id r) as [a|].
  - rewrite existsb_exists. split.
    + intros (x & Hx & E) b [= <-]. apply in_rows_of in Hx.
      exists x. repeat split; try tauto. apply string_eqb_true. exact E.
    + intros H. destruct (H a eq_refl) as (x & Hin & Ht & Hid).
      exists x. split; [apply in_rows_of; tauto|].
      rewrite Hid. apply String.eqb_refl.
  - split; [intros _ a H; discriminate H | reflexivity].
Qed.

Lemma references_valid_iff (d : Store.database) :
  references_valid d <->
  (forall r a, In r d -> referenced_application r = Some a ->
               exists x, In x d /\ Store.table_of x = Store.applications
                         /\ Store.id_of x = a).
Proof.
  unfold references_valid. rewrite Forall_forall. split.
  - intros H r a Hr. apply references_hold_iff. apply H. exact Hr.
  - intros H r Hr. apply references_hold_iff. intros a. apply H. exact Hr.
Qed.

Lemma targeted_key (c : Store.command) (uid : option uuid) (t : Store.table) (id : uuid)
  (r : Store.row) :
  Store.targeted c uid t id r = true -> Store.table_of r = t /\ Store.id_of r = id.
Proof.
  unfold Store.targeted. rewrite !andb_true_iff. intros [[[Ht Hid] _] _]. split.
  - apply Store.internal_table_dec_bl. exact Ht.
  - apply string_eqb_true. exact Hid.
Qed.

Lemma insert_keeps_constraints (uid : option uuid) (r : Store.row) (d : Store.database) :
  constraints_hold d -> constraints_hold (Store.db (Store.insert uid r d)).
Proof.
  intros [Hk Hr]. unfold Store.insert.
  destruct (negb (Store.permitted Store.INSERT uid r)); [split; assumption|].
  destruct (existsb (Store.collides r) d) eqn:Hc; [split; assumption|].
  destruct (negb (Store.references_hold r d)) eqn:Hf; [split; assumption|].
  apply negb_false_iff in Hf. cbn [Store.db]. split.
  - apply keys_distinct_snoc; assumption.
  - apply references_valid_iff. intros r0 a Hin Ha.
    assert (Hx : exists x, In x d /\ Store.table_of x = Store.applications
                           /\ Store.id_of x = a).
    { apply in_app_or in Hin. destruct Hin as [Hin | [<- | []]].
      - rewrite references_valid_iff in Hr. exact (Hr r0 a Hin Ha).
      - rewrite references_hold_iff in Hf. exact (Hf a Ha). }
    destruct Hx as (x & Hx & Hxt & Hxi).
    exists x. split; [apply in_or_app; left; exact Hx | split; assumption].
Qed.

Lemma update_keeps_constraints (uid : option uuid) (now : timestamptz) (p : Store.patch)
  (id : uuid) (d : Store.database) :
  constraints_hold d -> constraints_hold (Store.db (Store.update uid now p id d)).
Proof.
  intros [Hk Hr]. unfold Store.update.
  set (hit := Store.targeted Store.UPDATE uid (Store.patch_table p) id).
  destruct (forallb _ d); [|split; assumption].
  cbn [Store.db].
  set (g := fun r => if hit r then Store.revise now p r else r).
  assert (Hg : forall r, Store.table_of (g r) = Store.table_of r
                         /\ Store.id_of (g r) = Store.id_of r
                         /\ referenced_application (g r) = referenced_application r).
  { intros r. unfold g. destruct (hit r); [apply revise_keeps | repeat split]. }
  split.
  - apply keys_distinct_map; [| |exact Hk]; intros r x; unfold g, Store.revise.
    + destruct (hit r); [|reflexivity].
      rewrite (proj1 (collides_before_update now _ x)).
      apply collides_apply_patch.
    + destruct (hit x); [|reflexivity].
      rewrite (proj2 (collides_before_update now r _)).
      apply collides_apply_patch.
  - apply references_valid_iff. intros r' a Hin Ha.
    apply in_map_iff in Hin. destruct Hin as (r & <- & Hin).
    rewrite (proj2 (proj2 (Hg r))) in Ha.
    rewrite references_valid_iff in Hr.
    destruct (Hr r a Hin Ha) as (x & Hx & Hxt & Hxi).
    exists (g x). split; [apply in_map; exact Hx|].
    destruct (Hg x) as (-> & -> & _). split; assumption.
Qed.

Lemma delete_keeps_constraints (uid : option uuid) (now : timestamptz) (t : Store.table)
  (id : uuid) (d : Store.database) :
  constraints_hold d -> constraints_hold (Store.db (Store.delete uid now t id d)).
Proof.
  intros [Hk Hr]. unfold Store.delete. cbn [Store.db].
  set (hit := Store.targeted Store.DELETE uid t id).
  set (gone := if Store.table_beq t Store.applications
               then map Store.id_of (filter hit d) else []).
  split.
  - apply keys_distinct_map.
    + intros r x. apply collides_set_null.
    + intros r x. apply collides_set_null.
    + apply keys_distinct_filter. exact Hk.
  - apply references_valid_iff. intros r' a Hin Ha.
    apply in_map_iff in Hin. destruct Hin as (r & <- & Hin).
    apply filter_In in Hin. destruct Hin as [Hin _].
    apply set_null_referenced in Ha. destruct Ha as [Ha Hgone].
    rewrite references_valid_iff in Hr.
    destruct (Hr r a Hin Ha) as (x & Hx & Hxt & Hxi).
    exists (Store.on_delete_set_null now gone x).
    rewrite set_null_table, set_null_id. repeat split; try assumption.
    apply in_map. apply filter_In. split; [exact Hx|].
    destruct (hit x) eqn:E; [|reflexivity]. exfalso.
    destruct (targeted_key _ _ _ _ _ E) as [Et _].
    assert (Hin' : existsb (String.eqb a) gone = true).
    { apply existsb_exists. exists (Store.id_of x). split.
      - unfold gone. rewrite <- Et, Hxt. cbn.
        apply in_map. apply filter_In. split; assumption.
      - rewrite Hxi. apply String.eqb_refl. }
    congruence.
Qed.

(** Every statement keeps the constraints of the schema: after an insert,
    an update or a delete, by any caller and whether it succeeds or not,
    primary keys are still unique and every interview that names an
    application names one that exists. *)
Theorem statements_keep_constraints :
  forall (uid : option uuid) (now : timestamptz) (d : Store.database),
    constraints_hold d ->
    (forall r, constraints_hold (Store.db (Store.insert uid r d)))
    /\ (forall p id, constraints_hold (Store.db (Store.update uid now p id d)))
    /\ (forall t id, constraints_hold (Store.db (Store.delete uid now t id d))).
Proof.
  intros uid now d H. split; [|split].
  - intros r. apply insert_keeps_constraints. exact H.
  - intros p id. apply update_keeps_constraints. exact H.
  - intros t id. apply delete_keeps_constraints. exact H.
Qed.

Lemma sample_constraints : constraints_hold Sample.alices_database.
Proof.
  split.
  - cbn. repeat split; repeat constructor.
  - unfold references_valid. repeat constructor.
Qed.

Lemma statements_keep_constraints_witness :
  constraints_hold
    (Store.db (Store.delete (Some "alice") 200 Store.applications "a1"
                 Sample.alices_database)).
Proof.
  apply (statements_keep_constraints (Some "alice") 200 Sample.alices_database).
  split.
  - cbn. repeat split; repeat constructor.
  - unfold references_valid. repeat constructor.
Defined.

(** ** What the owner's statements do *)

(** Where the table has a policy for a writing command, the statement acts
    on the caller's rows with the given id, and on nothing else. *)
Lemma targeted_own (c : Store.command) (u : uuid) (t : Store.table) (id : uuid)
  (r : Store.row) :
  c <> Store.SELECT -> has_policy c t = true ->
  Store.targeted c (Some u) t id r = own_row u t id r.
Proof.
  intros Hc Hp. unfold Store.targeted, own_row.
  destruct (Store.table_beq (Store.table_of r) t) eqn:Et; [|reflexivity].
  apply Store.internal_table_dec_bl in Et. subst t.
  destruct (Store.id_of r =? id)%string; [|reflexivity]. cbn [andb].
  destruct c; try (exfalso; apply Hc; reflexivity);
    destruct r; try discriminate Hp; cbn;
    rewrite ?orb_false_r, ?andb_diag; apply String.eqb_sym.
Qed.

Lemma own_row_revise (u : uuid) (now : timestamptz) (p : Store.patch) (id : uuid)
  (r : Store.row) :
  own_row u (Store.patch_table p) id r = true ->
  match patch_owner p with Some o => o = u | None => True end ->
  Store.permitted Store.UPDATE (Some u) (Store.revise now p r) = true.
Proof.
  unfold own_row. rewrite !andb_true_iff. intros [[Ht _] Ho] Hp.
  apply Store.internal_table_dec_bl in Ht.
  destruct p, r; try discriminate Ht; cbn in Ho, Hp |- *; rewrite orb_false_r.
  - rewrite String.eqb_sym. exact Ho.
  - rewrite String.eqb_sym. exact Ho.
  - rewrite Hp. apply String.eqb_refl.
Qed.

Lemma owner_update_result :
  forall (u : uuid) (now : timestamptz) (p : Store.patch) (id : uuid) (d : Store.database),
    match patch_owner p with Some o => o = u | None => True end ->
    Store.update (Some u) now p id d
    = {| Store.error := None;
         Store.db := map (fun r => if own_row u (Store.patch_table p) id r
                                   then Store.before_update now (Store.apply_patch p r)
                                   else r) d |}.
Proof.
  intros u now p id d Hp. unfold Store.update.
  assert (Hpol : has_policy Store.UPDATE (Store.patch_table p) = true)
    by (destruct p; reflexivity).
  assert (Hhit : forall r, Store.targeted Store.UPDATE (Some u) (Store.patch_table p) id r
                           = own_row u (Store.patch_table p) id r)
    by (intros r; apply targeted_own; [discriminate | exact Hpol]).
  replace (forallb _ d) with true.
  - f_equal. apply map_ext. intros r. rewrite Hhit. reflexivity.
  - symmetry. apply forallb_forall. intros r _. rewrite Hhit.
    destruct (own_row u (Store.patch_table p) id r) eqn:E; [|reflexivity].
    cbn. apply (own_row_revise u now p id r); assumption.
Qed.

(** The updates of the pages (completion flag, status, the application
    form with the caller as owner) never fail: they revise exactly the
    caller's row with the given id, stamping it with the time of the update,
    and leave every other row as it is. *)
Theorem owner_update_revises_own_row :
  forall (u : uuid) (now : timestamptz) (p : Store.patch) (id : uuid) (d : Store.database),
    match patch_owner p with Some o => o = u | None => True end ->
    Store.update (Some u) now p id d
    = {| Store.error := None;
         Store.db := map (fun r => if own_row u (Store.patch_table p) id r
                                   then Store.before_update now (Store.apply_patch p r)
                                   else r) d |}.
Proof.
  intros u now p id d Hp. apply owner_update_result. exact Hp.
Qed.

Lemma owner_update_revises_own_row_witness :
  Store.update (Some "bob") 30 (Store.is_completed_patch true) "r1" Sample.bobs_database
  = {| Store.error := None;
       Store.db := [Store.resources_row
                      (Resource.set_updated_at 30
                         (Resource.set_is_completed true Sample.bobs_resource))] |}.
Proof.
  apply (owner_update_revises_own_row "bob" 30 (Store.is_completed_patch true) "r1"
           Sample.bobs_database).
  exact I.
Defined.

(** An application cannot be handed to another user: an update that
    would write a different owner into the caller's application is refused
    by the policy, and nothing changes. *)
Theorem application_owner_cannot_change :
  forall (u : uuid) (now : timestamptz) (a : ApplicationData.t) (id : uuid)
         (d : Store.database) (x : Application.t),
    In (Store.applications_row x) d ->
    x.(Application.id) = id ->
    x.(Application.user_id) = u ->
    a.(ApplicationData.user_id) <> u ->
    Store.update (Some u) now (Store.application_patch a) id d
    = Store.failed Store.row_security_violation d.
Proof.
  intros u now a id d x Hin Hid Hu Ha. unfold Store.update.
  destruct (forallb _ d) eqn:E; [|reflexivity]. exfalso.
  rewrite forallb_forall in E. specialize (E _ Hin).
  rewrite (targeted_own Store.UPDATE) in E by (discriminate || reflexivity).
  unfold own_row in E. cbn in E.
  rewrite Hid, Hu, !String.eqb_refl in E. cbn in E.
  rewrite orb_false_r in E. apply string_eqb_true in E. congruence.
Qed.

Lemma application_owner_cannot_change_witness :
  Store.update (Some "alice") 60
    (Store.application_patch
       {| ApplicationData.user_id := "bob";
          ApplicationData.company := "Acme"; ApplicationData.role := "Engineer";
          ApplicationData.status := "Applied";
          ApplicationData.applied_date := "2025-01-10";
          ApplicationData.job_url := None; ApplicationData.salary_range := None;
          ApplicationData.location := None; ApplicationData.notes := None |})
    "a1" Sample.alices_database
  = Store.failed Store.row_security_violation Sample.alices_database.
Proof.
  apply (application_owner_cannot_change "alice" 60 _ "a1" Sample.alices_database Sample.acme).
  - left; reflexivity.
  - reflexivity.
  - reflexivity.
  - discriminate.
Defined.

(** On resources, roadmap items, interviews and contacts a delete by id
    never fails and removes exactly the caller's rows with that id; rows of
    other users and of other tables stay as they are. *)
Theorem owner_delete_removes_own_row :
  forall (u : uuid) (now : timestamptz) (t : Store.table) (id : uuid) (d : Store.database),
    has_policy Store.DELETE t = true ->
    t <> Store.applications ->
    Store.delete (Some u) now t id d
    = {| Store.error := None;
         Store.db := filter (fun r => negb (own_row u t id r)) d |}.
Proof.
  intros u now t id d Hp Ht. unfold Store.delete.
  replace (Store.table_beq t Store.applications) with false
    by (destruct t; try reflexivity; exfalso; apply Ht; reflexivity).
  rewrite map_unchanged by (intros; apply set_null_nothing).
  f_equal. apply filter_ext. intros r.
  rewrite targeted_own by (discriminate || exact Hp). reflexivity.
Qed.

Lemma owner_delete_removes_own_row_witness :
  Store.delete (Some "alice") 30 Store.interviews "i2" Sample.alices_database
  = {| Store.error := None;
       Store.db := [ Store.applications_row Sample.acme;
                     Store.interviews_row Sample.first_round;
                     Store.resources_row Sample.bobs_resource ] |}.
Proof.
  apply (owner_delete_removes_own_row "alice" 30 Store.interviews "i2"
           Sample.alices_database).
  - reflexivity.
  - discriminate.
Defined.

Lemma collides_same_key (r x : Store.row) :
  Store.table_of x = Store.table_of r -> Store.id_of x = Store.id_of r ->
  Store.collides r x = true.
Proof.
  intros Ht Hid. unfold Store.collides.
  rewrite Ht, Hid, String.eqb_refl, (Store.internal_table_dec_lb _ _ eq_refl).
  reflexivity.
Qed.

(** Insert and delete undo each other: when a user's insert into a table
    with a DELETE policy has succeeded, deleting the new row by its id gives
    back the database from before the insert, provided the references of
    that database were valid. *)
Theorem insert_then_delete_restores :
  forall (u : uuid) (now : timestamptz) (r : Store.row) (d : Store.database),
    references_valid d ->
    has_policy Store.DELETE (Store.table_of r) = true ->
    Store.error (Store.insert (Some u) r d) = None ->
    Store.delete (Some u) now (Store.table_of r) (Store.id_of r)
      (Store.db (Store.insert (Some u) r d))
    = {| Store.error := None; Store.db := d |}.
Proof.
  intros u now r d Hrefs Hpol Hok.
  unfold Store.insert in *.
  destruct (Store.permitted Store.INSERT (Some u) r) eqn:Hp; [|discriminate Hok].
  destruct (existsb (Store.collides r) d) eqn:Hc; [discriminate Hok|].
  destruct (negb (Store.references_hold r d)); [discriminate Hok|].
  cbn [negb Store.db]. clear Hok.
  assert (Hfree : forall x, In x d -> Store.table_of x = Store.table_of r ->
                            Store.id_of x <> Store.id_of r).
  { intros x Hx Ht Hid.
    assert (existsb (Store.collides r) d = true); [|congruence].
    apply existsb_exists. exists x. split; [exact Hx|].
    apply collides_same_key; assumption. }
  assert (Howner : Store.user_id_of r = Some u)
    by (apply (permitted_write_owner Store.INSERT); [discriminate | exact Hp]).
  unfold Store.delete.
  set (hit := Store.targeted Store.DELETE (Some u) (Store.table_of r) (Store.id_of r)).
  assert (Hd : forall x, In x d -> hit x = false).
  { intros x Hx. destruct (hit x) eqn:E; [|reflexivity]. exfalso.
    destruct (targeted_key _ _ _ _ _ E) as [Et Ei]. exact (Hfree x Hx Et Ei). }
  assert (Hr : hit r = true).
  { unfold hit. rewrite targeted_own by (discriminate || exact Hpol).
    unfold own_row. rewrite Howner, !String.eqb_refl,
      (Store.internal_table_dec_lb _ _ eq_refl). reflexivity. }
  rewrite !filter_app. cbn [filter]. rewrite Hr. cbn [negb].
  rewrite (filter_none hit d Hd).
  rewrite (filter_all (fun x => negb (hit x)) d)
    by (intros x Hx; rewrite (Hd x Hx); reflexivity).
  rewrite app_nil_r. cbn [app map]. f_equal.
  apply map_unchanged. intros x Hx.
  destruct x; try reflexivity.
  rewrite set_null_interview.
  destruct (Interview.application_id r0) as [a|] eqn:Ea; [|reflexivity].
  destruct (existsb (String.eqb a) _) eqn:G; [|reflexivity]. exfalso.
  destruct (Store.table_beq (Store.table_of r) Store.applications) eqn:Et;
    [|discriminate G].
  apply Store.internal_table_dec_bl in Et.
  cbn in G. rewrite orb_false_r in G. apply string_eqb_true in G.
  rewrite references_valid_iff in Hrefs.
  destruct (Hrefs (Store.interviews_row r0) a Hx Ea) as (y & Hy & Hyt & Hyi).
  apply (Hfree y Hy); congruence.
Qed.

Lemma insert_then_delete_restores_witness :
  Store.delete (Some "alice") 70 Store.resources "r2"
    (Store.db (Store.insert (Some "alice") (Store.resources_row Sample.alices_resource)
                 Sample.alices_database))
  = {| Store.error := None; Store.db := Sample.alices_database |}.
Proof.
  apply (insert_then_delete_restores "alice" 70 (Store.resources_row Sample.alices_resource)
           Sample.alices_database).
  - unfold references_valid. repeat constructor.
  - reflexivity.
  - reflexivity.
Defined.

(* ================================================================= *)
(** * Further properties of the pages *)

(** ** What a page fetches *)

(** The rows a page reads from table [t] for the signed-in [user]. *)
Lemma in_mine (user : uuid) (t : Store.table) (d : Store.database) (r : Store.row) :
  t <> Store.past_questions ->
  (In r (eq_user_id user (Store.select (session user) t d))
   <-> In r d /\ Store.table_of r = t /\ Store.user_id_of r = Some user).
Proof.
  intros Ht. unfold eq_user_id, session. rewrite filter_In.
  rewrite (select_own_rows (Some user) t d r Ht).
  split; [tauto|]. intros (Hin & Hr & Hu). repeat split; try assumption.
  rewrite Hu. apply String.eqb_refl.
Qed.

Lemma in_resources_in (x : Resource.t) (l : list Store.row) :
  In x (resources_in l) <-> In (Store.resources_row x) l.
Proof.
  unfold resources_in. rewrite in_flat_map. split.
  - intros (r & Hr & Hx). destruct r; try contradiction.
    destruct Hx as [<- | []]. exact Hr.
  - intros H. exists (Store.resources_row x). split; [exact H | left; reflexivity].
Qed.

Lemma in_order_by {A} (le : A -> A -> bool) (l : list A) (x : A) :
  In x (order_by le l) <-> In x l.
Proof.
  split; apply Permutation_in;
    [symmetry|]; apply order_by_permutation.
Qed.

Lemma sorted_weaken {A} (R R' : A -> A -> Prop) (l : list A) :
  (forall a b, R a b -> R' a b) -> Sorted R l -> Sorted R' l.
Proof.
  intros H. induction 1 as [|a l Hs IH Hhd]; constructor; [exact IH|].
  destruct Hhd; constructor. apply H. assumption.
Qed.

(** The Resources page lists exactly the resources of the signed-in user
    that are in the database, newest first. *)
Theorem fetchResources_own_newest_first :
  forall (user : uuid) (d : Store.database),
    (forall x, In x (ResourcesPage.fetchResources user d)
               <-> In (Store.resources_row x) d /\ x.(Resource.user_id) = user)
    /\ Sorted (fun a b => b.(Resource.created_at) <= a.(Resource.created_at))
              (ResourcesPage.fetchResources user d).
Proof.
  intros user d. split.
  - intros x. unfold ResourcesPage.fetchResources.
    rewrite in_order_by, in_resources_in, in_mine by discriminate.
    cbn. split.
    + intros (H & _ & [= E]). tauto.
    + intros [H E]. repeat split; [exact H | congruence].
  - apply (sorted_weaken
             (fun a b => (b.(Resource.created_at) <=? a.(Resource.created_at)) = true)).
    + intros a b H. apply Z.leb_le. exact H.
    + apply order_by_sorted. intros a b.
      destruct (Z.le_ge_cases (Resource.created_at b) (Resource.created_at a)) as [H | H];
        [left | right]; apply Z.leb_le; exact H.
Qed.

(** ** Adding and completing a resource *)

Lemma mine_snoc (user : uuid) (t : Store.table) (d : Store.database) (r : Store.row) :
  eq_user_id user (Store.select (session user) t (d ++ [r])%list)
  = (eq_user_id user (Store.select (session user) t d)
     ++ eq_user_id user (Store.select (session user) t [r]))%list.
Proof.
  unfold eq_user_id, Store.select, Store.rows_of. rewrite !filter_app. reflexivity.
Qed.

Lemma resources_in_app (l l' : list Store.row) :
  resources_in (l ++ l')%list = (resources_in l ++ resources_in l')%list.
Proof. unfold resources_in. apply flat_map_app. Qed.

Lemma no_collision_resource (x : Resource.t) (d : Store.database) :
  existsb (Store.collides (Store.resources_row x)) d = false
  <-> (forall y, In (Store.resources_row y) d -> y.(Resource.id) <> x.(Resource.id)).
Proof.
  split.
  - intros H y Hy E.
    assert (existsb (Store.collides (Store.resources_row x)) d = true); [|congruence].
    apply existsb_exists. exists (Store.resources_row y). split; [exact Hy|].
    apply collides_same_key; [reflexivity | exact E].
  - intros H. apply not_true_is_false. intros E.
    apply existsb_exists in E. destruct E as (r & Hr & E).
    destruct r; try discriminate E.
    unfold Store.collides in E. cbn in E. rewrite orb_false_r in E.
    apply string_eqb_true in E. exact (H r Hr E).
Qed.

(** Adding a resource succeeds exactly when the new id is not the id of a
    stored resource. The resource is then on the user's list, with the
    title, category, type, url and notes of the form (an empty url or note
    stored as null) and not yet completed, next to the resources listed
    before; the lists of the other users do not change. When it fails, the
    database is as before. *)
Theorem handleAddResource_then_listed :
  forall (user : uuid) (f : ResourcesPage.form) (fresh : uuid) (now : timestamptz)
         (d : Store.database),
    (fst (ResourcesPage.handleAddResource user f fresh now d)
     = toast_success "Resource added!"
     <-> (forall y, In (Store.resources_row y) d -> y.(Resource.id) <> fresh))
    /\ (fst (ResourcesPage.handleAddResource user f fresh now d)
        = toast_success "Resource added!" ->
        Permutation
          (ResourcesPage.new_resource user f fresh now :: ResourcesPage.fetchResources user d)
          (ResourcesPage.fetchResources user
             (snd (ResourcesPage.handleAddResource user f fresh now d)))
        /\ (forall other, other <> user ->
              ResourcesPage.fetchResources other
                (snd (ResourcesPage.handleAddResource user f fresh now d))
              = ResourcesPage.fetchResources other d))
    /\ (fst (ResourcesPage.handleAddResource user f fresh now d)
        = toast_error "Failed to add resource" ->
        snd (ResourcesPage.handleAddResource user f fresh now d) = d).
Proof.
  intros user f fresh now d.
  set (x := ResourcesPage.new_resource user f fresh now).
  pose proof (handleAddResource_owner user f fresh now) as Hp. fold x in Hp.
  unfold ResourcesPage.handleAddResource, Store.insert. fold x.
  rewrite Hp. cbn [negb].
  pose proof (no_collision_resource x d) as Hfree. cbn [Resource.id x ResourcesPage.new_resource] in Hfree.
  destruct (existsb (Store.collides (Store.resources_row x)) d) eqn:Hc;
    cbn [negb Store.references_hold Store.failed Store.error Store.db fst snd].
  - split; [|split].
    + split; [discriminate|]. intros H. apply Hfree in H. discriminate H.
    + discriminate.
    + reflexivity.
  - split; [|split].
    + split; [intros _; apply Hfree; reflexivity | reflexivity].
    + intros _. split.
      * unfold ResourcesPage.fetchResources.
        rewrite mine_snoc, resources_in_app.
        replace (resources_in (eq_user_id user (Store.select (session user) Store.resources
                                                  [Store.resources_row x])))
          with [x] by (cbn; rewrite String.eqb_refl; cbn; rewrite String.eqb_refl; reflexivity).
        rewrite <- (order_by_permutation _ (_ ++ [x])%list).
        rewrite <- Permutation_cons_append. constructor.
        symmetry. apply order_by_permutation.
      * intros other Hother. unfold ResourcesPage.fetchResources.
        rewrite mine_snoc.
        replace (eq_user_id other (Store.select (session other) Store.resources
                                     [Store.resources_row x]))
          with (@nil Store.row); [rewrite app_nil_r; reflexivity|].
        cbn. apply String.eqb_neq in Hother. rewrite Hother. reflexivity.
    + discriminate.
Qed.

Lemma handleAddResource_then_listed_witness :
  Permutation
    (ResourcesPage.new_resource "alice" Sample.blind75 "r7" 40
       :: ResourcesPage.fetchResources "alice" Sample.bobs_database)
    (ResourcesPage.fetchResources "alice"
       (snd (ResourcesPage.handleAddResource "alice" Sample.blind75 "r7" 40
               Sample.bobs_database))).
Proof.
  apply (handleAddResource_then_listed "alice" Sample.blind75 "r7" 40 Sample.bobs_database).
  reflexivity.
Defined.







(* ================================================================= *)
(** * Further properties of the aggregations *)

(** ** Dictionaries *)

Lemma keys_assign {A} (k : string) (v : A) (o : JS.dict A) :
  map fst (JS.assign k v o)
  = match JS.lookup k o with
    | Some _ => map fst o
    | None => (map fst o ++ [k])%list
    end.
Proof.
  induction o as [|[k' x] o IH]; cbn; [reflexivity|].
  destruct (k' =? k)%string eqn:E; cbn; [reflexivity|].
  rewrite IH. destruct (JS.lookup k o); reflexivity.
Qed.

Lemma lookup_none {A} (k : string) (o : JS.dict A) :
  JS.lookup k o = None <-> ~ In k (map fst o).
Proof.
  induction o as [|[k' x] o IH]; cbn; [tauto|].
  destruct (k' =? k)%string eqn:E.
  - apply string_eqb_true in E. split; [discriminate | intros H; exfalso; apply H; auto].
  - apply String.eqb_neq in E. rewrite IH. tauto.
Qed.

Lemma keys_distinct_assign {A} (k : string) (v : A) (o : JS.dict A) :
  NoDup (map fst o) -> NoDup (map fst (JS.assign k v o)).
Proof.
  intros H. rewrite keys_assign.
  destruct (JS.lookup k o) eqn:E; [exact H|].
  apply lookup_none in E.
  apply NoDup_rev in H. rewrite <- (rev_involutive (_ ++ [k])%list).
  apply NoDup_rev. rewrite rev_app_distr. cbn. constructor; [|exact H].
  rewrite <- in_rev. exact E.
Qed.

Lemma in_distinct_lookup {A} (k : string) (v : A) (o : JS.dict A) :
  NoDup (map fst o) -> In (k, v) o -> JS.lookup k o = Some v.
Proof.
  induction o as [|[k' x] o IH]; cbn; [contradiction|].
  intros Hnd [E | Hin].
  - inversion E; subst. rewrite String.eqb_refl. reflexivity.
  - inversion Hnd as [|? ? Hk Hnd']; subst.
    destruct (k' =? k)%string eqn:E; [|exact (IH Hnd' Hin)].
    apply string_eqb_true in E. subst k'. exfalso. apply Hk.
    apply (in_map fst) in Hin. exact Hin.
Qed.

(** The sum of a measure after [o[k] = h(o[k])]. *)
Lemma total_assign {A} (m : A -> Z) (k : string) (h : option A -> A) (o : JS.dict A) :
  total_of m (JS.assign k (h (JS.lookup k o)) o)
  = total_of m o + m (h (JS.lookup k o))
    - match JS.lookup k o with Some v => m v | None => 0 end.
Proof.
  induction o as [|[k' x] o IH]; cbn; [lia|].
  destruct (k' =? k)%string eqn:E; cbn; [lia|].
  unfold total_of in IH. rewrite IH. lia.
Qed.

Lemma forall_assign {A} (P : A -> Prop) (k : string) (v : A) (o : JS.dict A) :
  P v -> Forall (fun kv => P (snd kv)) o ->
  Forall (fun kv => P (snd kv)) (JS.assign k v o).
Proof.
  intros Hv. induction 1 as [|[k' x] o Hx Ho IH]; cbn.
  - constructor; [exact Hv | constructor].
  - destruct (k' =? k)%string; constructor; try assumption.
Qed.

Lemma lookup_forall {A} (P : A -> Prop) (k : string) (v : A) (o : JS.dict A) :
  Forall (fun kv => P (snd kv)) o -> JS.lookup k o = Some v -> P v.
Proof.
  intros H E. apply lookup_in in E. rewrite Forall_forall in H. exact (H _ E).
Qed.

(** [Object.entries] lists every property once. *)
Lemma filter_split {A} (p : A -> bool) (l : list A) :
  Permutation (filter p l ++ filter (fun x => negb (p x)) l)%list l.
Proof.
  induction l as [|x l IH]; cbn; [constructor|].
  destruct (p x); cbn.
  - constructor. exact IH.
  - rewrite <- Permutation_middle. constructor. exact IH.
Qed.

Lemma entries_permutation {A} (o : JS.dict A) : Permutation (JS.entries o) o.
Proof.
  unfold JS.entries.
  set (is_index := fun kv : string * A =>
         match JS.array_index (fst kv) with Some _ => true | None => false end).
  rewrite <- (filter_split is_index o) at 3.
  apply Permutation_app.
  - rewrite <- (order_by_permutation _ _).
    induction o as [|kv o IH]; cbn; [constructor|].
    unfold is_index at 1.
    destruct (JS.array_index (fst kv)); cbn; [constructor|]; exact IH.
  - apply Permutation_refl'. apply filter_ext. intros kv. unfold is_index.
    destruct (JS.array_index (fst kv)); reflexivity.
Qed.

Lemma total_permutation {A} (m : A -> Z) (l l' : list (string * A)) :
  Permutation l l' -> total_of m l = total_of m l'.
Proof.
  induction 1; cbn; try lia. unfold total_of in *. congruence.
Qed.

(** ** Counting by key *)

Lemma count_one_keys (keys : list string) (o : JS.dict Z) :
  NoDup (map fst o) ->
  Forall (fun kv => 1 <= snd kv) o ->
  NoDup (map fst (fold_left count_one keys o))
  /\ Forall (fun kv => 1 <= snd kv) (fold_left count_one keys o)
  /\ total_of (fun n => n) (fold_left count_one keys o)
     = total_of (fun n => n) o + Z.of_nat (List.length keys)
  /\ (forall k, JS.or_zero (JS.lookup k (fold_left count_one keys o))
                = JS.or_zero (JS.lookup k o) + times k keys)
  /\ (forall k, In k (map fst (fold_left count_one keys o))
                <-> In k (map fst o) \/ In k keys).
Proof.
  revert o. induction keys as [|key keys IH]; intros o Hnd Hpos.
  - cbn [fold_left]. split; [exact Hnd|]. split; [exact Hpos|].
    split; [cbn [List.length Z.of_nat]; lia|].
    split; intros k; [unfold times; cbn; lia | cbn; tauto].
  - cbn [fold_left].
    assert (Hnd' : NoDup (map fst (count_one o key)))
      by (apply keys_distinct_assign; exact Hnd).
    assert (Hzero : 0 <= JS.or_zero (JS.lookup key o)).
    { destruct (JS.lookup key o) as [n|] eqn:E; cbn; [|lia].
      pose proof (lookup_forall (fun n => 1 <= n) key n o Hpos E) as H. cbn in H. lia. }
    assert (Hpos' : Forall (fun kv => 1 <= snd kv) (count_one o key))
      by (apply (forall_assign (fun n => 1 <= n)); [lia | exact Hpos]).
    destruct (IH (count_one o key) Hnd' Hpos') as (H1 & H2 & H3 & H4 & H5).
    split; [exact H1|]. split; [exact H2|]. split; [|split].
    + rewrite H3. unfold count_one.
      rewrite (total_assign (fun n => n) key (fun v => JS.or_zero v + 1) o).
      cbn [List.length]. destruct (JS.lookup key o); cbn; lia.
    + intros k. rewrite H4, lookup_count_one. unfold times. cbn [count_occ].
      destruct (string_dec key k) as [E | E].
      * subst. rewrite String.eqb_refl. cbn. lia.
      * apply String.eqb_neq in E. rewrite E. lia.
    + intros k. rewrite H5. unfold count_one. rewrite keys_assign. cbn [In].
      destruct (JS.lookup key o) eqn:E.
      * split; [tauto|]. intros [H | [H | H]]; try tauto. subst. left.
        destruct (in_dec string_dec k (map fst o)) as [Hin | Hout]; [exact Hin|].
        apply lookup_none in Hout. congruence.
      * rewrite in_app_iff. cbn. tauto.
Qed.

Lemma fold_left_keys {A} (key : A -> string) (l : list A) (o : JS.dict Z) :
  fold_left (fun acc x => count_one acc (key x)) l o
  = fold_left count_one (map key l) o.
Proof.
  revert o. induction l as [|x l IH]; intros o; [reflexivity|]. cbn. apply IH.
Qed.


(** The chart made of a list of keys: one entry per distinct key, with the
    number of its occurrences. *)
Lemma chart_of_keys (keys : list string) :
  NoDup (map fst (JS.entries (fold_left count_one keys [])))
  /\ sum_by snd (JS.entries (fold_left count_one keys [])) = Z.of_nat (List.length keys)
  /\ (forall k n, In (k, n) (JS.entries (fold_left count_one keys []))
                  <-> In k keys /\ n = times k keys).
Proof.
  destruct (count_one_keys keys [] (NoDup_nil _) (Forall_nil _))
    as (Hnd & Hpos & Hsum & Hlook & Hkeys).
  pose proof (entries_permutation (fold_left count_one keys [])) as Hperm.
  split; [|split].
  - apply (Permutation_NoDup (l := map fst (fold_left count_one keys []))); [|exact Hnd].
    apply Permutation_map. symmetry. exact Hperm.
  - change (sum_by snd (JS.entries (fold_left count_one keys [])))
      with (total_of (fun n : Z => n) (JS.entries (fold_left count_one keys []))).
    rewrite (total_permutation _ _ _ Hperm), Hsum. cbn. lia.
  - intros k n. split.
    + intros H. apply (Permutation_in _ Hperm) in H.
      pose proof (in_distinct_lookup k n _ Hnd H) as E.
      specialize (Hlook k). rewrite E in Hlook. cbn in Hlook. split; [|lia].
      apply (in_map fst) in H. apply Hkeys in H. cbn in H. tauto.
    + intros [Hin ->].
      assert (Hk : In k (map fst (fold_left count_one keys []))) by (apply Hkeys; auto).
      destruct (JS.lookup k (fold_left count_one keys [])) as [m|] eqn:E.
      * specialize (Hlook k). rewrite E in Hlook. cbn in Hlook.
        apply (Permutation_in _ (Permutation_sym Hperm)).
        replace (times k keys) with m by lia. apply lookup_in. exact E.
      * apply lookup_none in E. contradiction.
Qed.

(** ** The Dashboard *)


Lemma dashboard_status_chart_example :
  DashboardPage.applicationsByStatus
    (DashboardPage.fetchStats "alice" 0 Sample.low_draws Sample.alices_database)
  = [("Applied", 1)].
Proof. reflexivity. Qed.

(** ** The Analytics page *)


Lemma fold_left_sum {A} (m : A -> Z) (l : list A) (a : Z) :
  fold_left (fun sum x => sum + m x) l a = a + sum_by m l.
Proof.
  revert a. induction l as [|x l IH]; intros a; cbn; [lia|].
  rewrite IH. unfold sum_by. lia.
Qed.




(** The application count that the Analytics page sends to the relay is
    the number of the user's applications, however the dates fall into
    month buckets (and so whatever the time zone of the browser is). *)
Theorem suggestions_request_application_count :
  forall (month_label : date -> string) (user : uuid) (random : JS.entropy)
         (d : Store.database),
    Relay.applicationCount
      (AnalyticsPage.suggestions_request
         (Some (AnalyticsPage.fetchAnalytics month_label user random d)))
    = Some (Z.of_nat
              (List.length
                 (applications_in
                    (eq_user_id user (Store.select (session user) Store.applications d))))).
Proof.
  intros ml user random d.
  cbn [AnalyticsPage.suggestions_request AnalyticsPage.fetchAnalytics option_map
       AnalyticsPage.applicationsByMonth Relay.applicationCount].
  f_equal. rewrite fold_left_sum, fold_left_keys.
  destruct (chart_of_keys
              (map (fun app => ml (Application.applied_date app))
                   (applications_in
                      (eq_user_id user (Store.select (session user) Store.applications d)))))
    as (_ & Hsum & _).
  rewrite Hsum, length_map. reflexivity.
Qed.

(** ** Rows of other users *)

Lemma mine_ignores (user : uuid) (t : Store.table) (d1 d2 : Store.database)
  (r : Store.row) :
  Store.user_id_of r <> Some user ->
  eq_user_id user (Store.select (session user) t (d1 ++ r :: d2)%list)
  = eq_user_id user (Store.select (session user) t (d1 ++ d2)%list).
Proof.
  intros Hr. unfold eq_user_id, Store.select, Store.rows_of.
  rewrite !filter_app. f_equal. cbn [filter].
  destruct (Store.table_beq (Store.table_of r) t); [|reflexivity]. cbn [filter].
  destruct (Store.permitted Store.SELECT (session user) r); [|reflexivity]. cbn [filter].
  destruct (Store.user_id_of r) as [owner|]; [|reflexivity].
  destruct (owner =? user)%string eqn:E; [|reflexivity].
  apply string_eqb_true in E. congruence.
Qed.

(** What the pages show a user depends on that user's rows only: a row
    of somebody else (or of the question bank), wherever it sits in the
    database, changes neither the Dashboard, nor the Analytics, nor the
    lists of resources, roadmap items, interviews and practice tests. *)
Theorem pages_ignore_foreign_rows :
  forall (user : uuid) (r : Store.row) (d1 d2 : Store.database),
    Store.user_id_of r <> Some user ->
    (forall now random,
        DashboardPage.fetchStats user now random (d1 ++ r :: d2)%list
        = DashboardPage.fetchStats user now random (d1 ++ d2)%list)
    /\ (forall month_label random,
          AnalyticsPage.fetchAnalytics month_label user random (d1 ++ r :: d2)%list
          = AnalyticsPage.fetchAnalytics month_label user random (d1 ++ d2)%list)
    /\ ResourcesPage.fetchResources user (d1 ++ r :: d2)%list
       = ResourcesPage.fetchResources user (d1 ++ d2)%list
    /\ RoadmapPage.fetchItems user (d1 ++ r :: d2)%list
       = RoadmapPage.fetchItems user (d1 ++ d2)%list
    /\ InterviewsPage.fetchInterviews user (d1 ++ r :: d2)%list
       = InterviewsPage.fetchInterviews user (d1 ++ d2)%list
    /\ PracticePage.fetchTests (Some user) (d1 ++ r :: d2)%list
       = PracticePage.fetchTests (Some user) (d1 ++ d2)%list.
Proof.
  intros user r d1 d2 Hr.
  pose proof (fun t => mine_ignores user t d1 d2 r Hr) as H.
  split; [|split; [|split; [|split; [|split]]]].
  - intros now random. unfold DashboardPage.fetchStats. cbv zeta.
    rewrite !H. reflexivity.
  - intros ml random. unfold AnalyticsPage.fetchAnalytics. cbv zeta.
    rewrite !H. reflexivity.
  - unfold ResourcesPage.fetchResources. rewrite H. reflexivity.
  - unfold RoadmapPage.fetchItems. rewrite H. reflexivity.
  - unfold InterviewsPage.fetchInterviews. rewrite H. reflexivity.
  - unfold PracticePage.fetchTests. rewrite H. reflexivity.
Qed.

Lemma pages_ignore_foreign_rows_witness :
  ResourcesPage.fetchResources "alice"
    ([Store.resources_row Sample.alices_resource]
       ++ Store.resources_row Sample.bobs_resource :: [])%list
  = ResourcesPage.fetchResources "alice" ([Store.resources_row Sample.alices_resource] ++ [])%list.
Proof.
  apply (pages_ignore_foreign_rows "alice" (Store.resources_row Sample.bobs_resource)
           [Store.resources_row Sample.alices_resource] []).
  discriminate.
Defined.

(* ================================================================= *)
(** * The roadmap by week *)

Lemma number_of_decimal (w : Z) : RoadmapPage.Number (JS.decimal w) = Some w.
Proof.
  unfold RoadmapPage.Number, JS.decimal.
  rewrite NilZero.isi.
  - cbn. rewrite DecimalZ.of_to. reflexivity.
  - destruct w; cbn; try discriminate.
    intros [= H]. exact (DecimalPos.Unsigned.to_uint_nonnil _ H).
  - destruct w; cbn; try discriminate.
    intros [= H]. exact (DecimalPos.Unsigned.to_uint_nonnil _ H).
Qed.

Lemma decimal_injective (w w' : Z) : JS.decimal w = JS.decimal w' -> w = w'.
Proof.
  intros H. apply (f_equal RoadmapPage.Number) in H.
  rewrite !number_of_decimal in H. congruence.
Qed.

Lemma decimal_eqb (w w' : Z) : (JS.decimal w =? JS.decimal w')%string = (w =? w').
Proof.
  destruct (w =? w') eqn:E.
  - apply Z.eqb_eq in E. subst. apply String.eqb_refl.
  - apply String.eqb_neq. intros H. apply decimal_injective in H.
    apply Z.eqb_neq in E. contradiction.
Qed.

(** The group of a key after the reduce: what was there, followed by the
    items of that key in list order. *)
Lemma lookup_pushed (k : string) (items : list RoadmapItem.t)
  (o : JS.dict (list RoadmapItem.t)) :
  JS.lookup k (fold_left RoadmapPage.push items o)
  = match filter (fun i => (JS.decimal (RoadmapPage.week_of i) =? k)%string) items with
    | [] => JS.lookup k o
    | l => Some (match JS.lookup k o with Some l0 => l0 | None => [] end ++ l)%list
    end.
Proof.
  revert o. induction items as [|i items IH]; intros o; [reflexivity|].
  cbn [fold_left filter]. rewrite IH. unfold RoadmapPage.push. cbv zeta.
  rewrite !lookup_assign.
  destruct (JS.decimal (RoadmapPage.week_of i) =? k)%string eqn:E.
  - apply string_eqb_true in E. rewrite E.
    destruct (filter _ items) as [|j l]; [reflexivity|].
    rewrite <- app_assoc. reflexivity.
  - reflexivity.
Qed.

Lemma pushed_keys_distinct (items : list RoadmapItem.t) (o : JS.dict (list RoadmapItem.t)) :
  NoDup (map fst o) -> NoDup (map fst (fold_left RoadmapPage.push items o)).
Proof.
  revert o. induction items as [|i items IH]; intros o H; [exact H|].
  cbn [fold_left]. apply IH. apply keys_distinct_assign. exact H.
Qed.

Lemma in_lookup_some {A} (k : string) (o : JS.dict A) :
  In k (map fst o) -> exists v, JS.lookup k o = Some v.
Proof.
  intros H. destruct (JS.lookup k o) as [v|] eqn:E; [eauto|].
  apply lookup_none in E. contradiction.
Qed.

Lemma sorted_distinct {A} (R : A * list RoadmapItem.t -> A * list RoadmapItem.t -> Prop)
  (l : list (A * list RoadmapItem.t)) :
  Sorted R l -> NoDup (map fst l) ->
  Sorted (fun a b => R a b /\ fst a <> fst b) l.
Proof.
  induction 1 as [|a l Hs IH Hhd]; intros Hnd; constructor.
  - apply IH. inversion Hnd; assumption.
  - destruct Hhd as [|b l Hab]; constructor. split; [exact Hab|].
    inversion Hnd as [|? ? Hnot _]; subst. intros E. apply Hnot. left. symmetry. exact E.
Qed.

(** The Roadmap page shows the fetched items in groups by week: a group
    for each week that has items, holding exactly the items of that week in
    the order of the list, the items without a week being those of week 0;
    and the groups come in ascending order of the week number, each week
    once. *)
Theorem roadmap_weeks_partition :
  forall (items : list RoadmapItem.t) (k : string) (l : list RoadmapItem.t),
    (In (k, l) (RoadmapPage.weeks items)
     <-> exists w, k = JS.decimal w
                   /\ l = filter (fun i => RoadmapPage.week_of i =? w) items
                   /\ l <> [])
    /\ Sorted (fun a b => exists x y, RoadmapPage.Number (fst a) = Some x
                                      /\ RoadmapPage.Number (fst b) = Some y
                                      /\ x < y)
              (RoadmapPage.weeks items).
Proof.
  intros items k l.
  pose proof (pushed_keys_distinct items [] (NoDup_nil _)) as Hnd.
  fold (RoadmapPage.groupedByWeek items) in Hnd.
  pose proof (entries_permutation (RoadmapPage.groupedByWeek items)) as Hperm.
  assert (Hin : forall k' l', In (k', l') (RoadmapPage.weeks items)
                              <-> JS.lookup k' (RoadmapPage.groupedByWeek items) = Some l').
  { intros k' l'. unfold RoadmapPage.weeks. rewrite in_order_by. split.
    - intros H. apply (Permutation_in _ Hperm) in H.
      apply in_distinct_lookup; assumption.
    - intros H. apply (Permutation_in _ (Permutation_sym Hperm)).
      apply lookup_in. exact H. }
  assert (Hkey : forall k' l', JS.lookup k' (RoadmapPage.groupedByWeek items) = Some l' ->
                               exists w, k' = JS.decimal w).
  { intros k' l' H. unfold RoadmapPage.groupedByWeek in H. rewrite lookup_pushed in H.
    destruct (filter _ items) as [|i rest] eqn:F; [discriminate H|].
    assert (Hi : In i (filter (fun i => (JS.decimal (RoadmapPage.week_of i) =? k')%string)
                              items)) by (rewrite F; left; reflexivity).
    apply filter_In in Hi. destruct Hi as [_ Hi]. apply string_eqb_true in Hi.
    exists (RoadmapPage.week_of i). symmetry. exact Hi. }
  split.
  - rewrite Hin. split.
    + intros H. destruct (Hkey _ _ H) as (w & ->). exists w. split; [reflexivity|].
      unfold RoadmapPage.groupedByWeek in H. rewrite lookup_pushed in H.
      rewrite (filter_ext _ (fun i => RoadmapPage.week_of i =? w)) in H
        by (intros i; apply decimal_eqb).
      destruct (filter _ items) as [|i rest]; [discriminate H|].
      cbn in H. inversion H. split; [reflexivity | discriminate].
    + intros (w & -> & -> & Hne).
      unfold RoadmapPage.groupedByWeek. rewrite lookup_pushed.
      rewrite (filter_ext _ (fun i => RoadmapPage.week_of i =? w))
        by (intros i; apply decimal_eqb).
      destruct (filter _ items) as [|i rest]; [contradiction Hne; reflexivity|].
      reflexivity.
  - assert (Hs : Sorted (fun a b => RoadmapPage.week_no_later a b = true
                                    /\ fst a <> fst b) (RoadmapPage.weeks items)).
    { apply sorted_distinct.
      - apply order_by_sorted. intros a b. unfold RoadmapPage.week_no_later.
        destruct (RoadmapPage.Number (fst a)) as [x|], (RoadmapPage.Number (fst b)) as [y|];
          auto.
        destruct (Z.le_ge_cases x y); [left | right]; apply Z.leb_le; assumption.
      - apply (Permutation_NoDup (l := map fst (RoadmapPage.groupedByWeek items)));
          [|exact Hnd].
        apply Permutation_map. unfold RoadmapPage.weeks.
        rewrite <- order_by_permutation. symmetry. exact Hperm. }
    assert (Hall : Forall (fun a => exists w, fst a = JS.decimal w) (RoadmapPage.weeks items)).
    { apply Forall_forall. intros [k' l'] H. apply Hin in H. exact (Hkey _ _ H). }
    revert Hs Hall. generalize (RoadmapPage.weeks items).
    induction 1 as [|a rest Hs IH Hhd]; intros Hall; constructor.
    + apply IH. inversion Hall; assumption.
    + destruct Hhd as [|b rest [Hle Hne]]; constructor.
      inversion Hall as [|? ? [x Hx] Hall']; subst.
      inversion Hall' as [|? ? [y Hy] _]; subst.
      exists x, y. rewrite Hx, Hy, !number_of_decimal. repeat split.
      unfold RoadmapPage.week_no_later in Hle.
      rewrite Hx, Hy, !number_of_decimal in Hle. apply Z.leb_le in Hle.
      assert (x <> y) by (intros ->; apply Hne; congruence). lia.
Qed.

Example roadmap_weeks_example :
  map (fun g => (RoadmapPage.week_title (fst g), map RoadmapItem.id (snd g)))
      (RoadmapPage.weeks Sample.fetched_roadmap)
  = [ ("Unscheduled", ["mock"]); ("Week 1", ["arrays"]); ("Week 2", ["dp"; "graphs"]) ].
Proof. vm_compute. reflexivity. Qed.

(* ================================================================= *)
(** * Further properties of the relay *)



Lemma or_else_truthy (c : option JS.value) (s : string) :
  s <> "" -> JS.truthy (JS.or_else c (JS.Str s)) = true.
Proof.
  intros Hs. unfold JS.or_else.
  assert (Hf : JS.truthy (JS.Str s) = true) by (destruct s; [contradiction | reflexivity]).
  destruct c as [v|]; [|exact Hf].
  destruct (JS.truthy v) eqn:E; [exact E | exact Hf].
Qed.

(** Every reply of the relay has one of three shapes: [ok] with status 200
    to a preflight and to nothing else; status 200 with suggestions that
    are never empty (never the empty text, null, false or 0); or status 500
    with an error. *)
Theorem relay_reply_shapes :
  forall (key : option string) (ai : Relay.backend) (req : Relay.request),
    (Relay.method req = "OPTIONS"
     /\ Relay.serve key ai req = {| Relay.status := 200; Relay.content := Relay.Plain "ok" |})
    \/ (Relay.method req <> "OPTIONS"
        /\ ((exists v, Relay.serve key ai req
                       = {| Relay.status := 200; Relay.content := Relay.Suggestions v |}
                       /\ JS.truthy v = true)
            \/ (exists e, Relay.serve key ai req
                          = {| Relay.status := 500; Relay.content := Relay.Failure e |}))).
Proof.
  intros key ai [m b]. unfold Relay.serve. cbn [Relay.method].
  destruct (m =? "OPTIONS")%string eqn:Em.
  - left. apply string_eqb_true in Em. split; [exact Em | reflexivity].
  - right. apply String.eqb_neq in Em. split; [exact Em|].
    destruct (Relay.attempt key ai {| Relay.method := m; Relay.json := b |})
      as [e | r] eqn:E; [right; eauto|].
    left. unfold Relay.attempt in E. cbn [Relay.json] in E.
    destruct b as [| |p]; try discriminate E.
    destruct key as [[|a k]|]; try discriminate E.
    destruct (ai _) as [|[|] text [result|]]; try discriminate E.
    destruct (Relay.generated result) as [e|c]; [discriminate E|].
    inversion E; subst r. eexists. split; [reflexivity|].
    apply or_else_truthy. discriminate.
Qed.

(* ================================================================= *)
(** * Searching contacts and questions *)

Lemma prefix_iff (t s : string) :
  String.prefix t s = true <-> exists v, s = t ++ v.
Proof.
  revert t. induction s as [|c' s IH]; intros t.
  - destruct t as [|c t]; cbn.
    + split; [intros _; exists ""; reflexivity | reflexivity].
    + split; [discriminate | intros [v H]; discriminate H].
  - destruct t as [|c t]; cbn.
    + split; [intros _; exists (String c' s); reflexivity | reflexivity].
    + destruct (ascii_dec c c') as [<- | Hne].
      * rewrite IH. split; intros [v H]; exists v;
          [rewrite H; reflexivity | now inversion H].
      * split; [discriminate|]. intros [v H]. inversion H. congruence.
Qed.

Lemma includes_iff (s t : string) :
  Text.includes s t = true <-> exists u v, s = u ++ t ++ v.
Proof.
  induction s as [|c s IH]; cbn [Text.includes]; rewrite orb_true_iff, prefix_iff.
  - split.
    + intros [[v H] | H]; [exists "", v; exact H | discriminate H].
    + intros (u & v & H). left. destruct u; [exists v; exact H | discriminate H].
  - rewrite IH. split.
    + intros [[v H] | (u & v & H)].
      * exists "", v. exact H.
      * exists (String c u), v. cbn. rewrite H. reflexivity.
    + intros (u & v & H). destruct u as [|c' u].
      * left. exists v. exact H.
      * right. exists u, v. cbn in H. now inversion H.
Qed.

Lemma append_assoc (a b c : string) : (a ++ b) ++ c = a ++ b ++ c.
Proof. induction a as [|x a IH]; cbn; [reflexivity | rewrite IH; reflexivity]. Qed.

Lemma includes_trans (a b c : string) :
  Text.includes a b = true -> Text.includes b c = true -> Text.includes a c = true.
Proof.
  rewrite !includes_iff. intros (u & v & ->) (u' & v' & ->).
  exists (u ++ u'), (v' ++ v). rewrite !append_assoc. reflexivity.
Qed.

Lemma toLowerCase_append (a b : string) :
  Text.toLowerCase (a ++ b) = Text.toLowerCase a ++ Text.toLowerCase b.
Proof. induction a as [|x a IH]; cbn; [reflexivity | rewrite IH; reflexivity]. Qed.

Lemma includes_toLowerCase (s t : string) :
  Text.includes s t = true ->
  Text.includes (Text.toLowerCase s) (Text.toLowerCase t) = true.
Proof.
  rewrite !includes_iff. intros (u & v & ->).
  exists (Text.toLowerCase u), (Text.toLowerCase v).
  rewrite !toLowerCase_append. reflexivity.
Qed.

Lemma includes_empty (s : string) : Text.includes s "" = true.
Proof. apply includes_iff. exists "", s. reflexivity. Qed.

(** Typing more into a search box only narrows the list: whoever is found
    for a search text is found for every text that occurs in it, whatever
    the case of the letters; and with the empty text (and, for the
    questions, the category filter on all) everything is listed. *)
Theorem search_narrows :
  forall (search part : string),
    Text.includes (Text.toLowerCase search) (Text.toLowerCase part) = true ->
    (forall contacts,
        incl (ContactsPage.filteredContacts search contacts)
             (ContactsPage.filteredContacts part contacts)
        /\ ContactsPage.filteredContacts "" contacts = contacts)
    /\ (forall filter questions,
          incl (PracticePage.filteredQuestions search filter questions)
               (PracticePage.filteredQuestions part filter questions)
          /\ PracticePage.filteredQuestions "" "all" questions = questions).
Proof.
  intros search part H.
  assert (Hstep : forall s, Text.includes s (Text.toLowerCase search) = true ->
                            Text.includes s (Text.toLowerCase part) = true)
    by (intros s Hs; exact (includes_trans _ _ _ Hs H)).
  split.
  - intros contacts. split.
    + intros c Hc. unfold ContactsPage.filteredContacts in *.
      apply filter_In in Hc. destruct Hc as [Hin Hc]. apply filter_In. split; [exact Hin|].
      apply orb_true_iff in Hc. apply orb_true_iff.
      destruct Hc as [Hc | Hc]; [left | right]; apply Hstep; exact Hc.
    + apply filter_all. intros c _. cbn. rewrite includes_empty. reflexivity.
  - intros filter questions. split.
    + intros q Hq. unfold PracticePage.filteredQuestions in *.
      apply filter_In in Hq. destruct Hq as [Hin Hq]. apply filter_In. split; [exact Hin|].
      cbv zeta in *. apply andb_true_iff in Hq. destruct Hq as [Hq Hf].
      rewrite Hf, andb_true_r.
      apply orb_true_iff in Hq. apply orb_true_iff.
      destruct Hq as [Hq | Hq]; [left | right]; apply Hstep; exact Hq.
    + apply filter_all. intros q _. cbn. rewrite includes_empty. reflexivity.
Qed.

Lemma search_narrows_witness :
  incl (ContactsPage.filteredContacts "ACME" [Sample.recruiter])
       (ContactsPage.filteredContacts "cm" [Sample.recruiter]).
Proof.
  apply (search_narrows "ACME" "cm"); reflexivity.
Defined.

Example search_finds_by_either_field :
  ContactsPage.filteredContacts "acme" [Sample.recruiter] = [Sample.recruiter]
  /\ ContactsPage.filteredContacts "REYES" [Sample.recruiter] = [Sample.recruiter]
  /\ ContactsPage.filteredContacts "globex" [Sample.recruiter] = [].
Proof. repeat split; reflexivity. Qed.

(* ================================================================= *)
(** * The schedule *)

Lemma after_now_fixed (now : timestamptz) (k : nat) (l : list SchedulePage.entry) :
  SchedulePage.after_now (fun _ => now) k l
  = filter (fun e => now <? e.(SchedulePage.interview_date)) l.
Proof.
  revert k. induction l as [|e l IH]; intros k; [reflexivity|].
  cbn. rewrite IH. reflexivity.
Qed.

Lemma strongly_sorted_filter {A} (R : A -> A -> Prop) (f : A -> bool) (l : list A) :
  StronglySorted R l -> StronglySorted R (filter f l).
Proof.
  induction 1 as [|a l Hs IH Ha]; cbn; [constructor|].
  destruct (f a); [|exact IH]. constructor; [exact IH|].
  apply Forall_forall. intros x Hx. apply filter_In in Hx.
  rewrite Forall_forall in Ha. apply Ha. tauto.
Qed.

Lemma strongly_sorted_app {A} (R : A -> A -> Prop) (l l' : list A) :
  StronglySorted R (l ++ l')%list ->
  StronglySorted R l /\ (forall x y, In x l -> In y l' -> R x y).
Proof.
  induction l as [|a l IH]; cbn; intros H.
  - split; [constructor | intros x y []].
  - inversion H as [|? ? Hs Ha]; subst. destruct (IH Hs) as [Hl Hxy].
    apply Forall_app in Ha. destruct Ha as [Hal Hal'].
    split; [constructor; assumption|].
    intros x y [<- | Hx] Hy; [|exact (Hxy x y Hx Hy)].
    rewrite Forall_forall in Hal'. exact (Hal' y Hy).
Qed.

Lemma fetched_schedule_sorted (user : uuid) (start finish : timestamptz)
  (d : Store.database) :
  StronglySorted (fun a b => a.(SchedulePage.interview_date) <= b.(SchedulePage.interview_date))
                 (SchedulePage.fetchInterviews user start finish d).
Proof.
  apply Sorted_StronglySorted; [intros a b c; lia|].
  apply (sorted_weaken
           (fun a b => (a.(SchedulePage.interview_date) <=? b.(SchedulePage.interview_date))
                       = true)).
  - intros a b H. apply Z.leb_le. exact H.
  - apply order_by_sorted. intros a b.
    destruct (Z.le_ge_cases (SchedulePage.interview_date a) (SchedulePage.interview_date b));
      [left | right]; apply Z.leb_le; assumption.
Qed.

Lemma in_interviews_in (x : Interview.t) (l : list Store.row) :
  In x (interviews_in l) <-> In (Store.interviews_row x) l.
Proof.
  unfold interviews_in. rewrite in_flat_map. split.
  - intros (r & Hr & Hx). destruct r; try contradiction.
    destruct Hx as [<- | []]. exact Hr.
  - intros H. exists (Store.interviews_row x). split; [exact H | left; reflexivity].
Qed.

Lemma in_fetched_schedule (user : uuid) (start finish : timestamptz)
  (d : Store.database) (e : SchedulePage.entry) :
  In e (SchedulePage.fetchInterviews user start finish d)
  <-> exists i, In (Store.interviews_row i) d
                /\ i.(Interview.user_id) = user
                /\ start <= i.(Interview.interview_date) <= finish
                /\ e = SchedulePage.selected i.
Proof.
  unfold SchedulePage.fetchInterviews. rewrite in_order_by, in_map_iff. split.
  - intros (i & <- & Hi). apply filter_In in Hi. destruct Hi as [Hi Hw].
    apply in_interviews_in, in_mine in Hi; [|discriminate].
    destruct Hi as (Hin & _ & [= Hu]).
    apply andb_true_iff in Hw. destruct Hw as [H1 H2].
    apply Z.leb_le in H1. apply Z.leb_le in H2.
    exists i. repeat split; assumption.
  - intros (i & Hin & Hu & [H1 H2] & ->). exists i. split; [reflexivity|].
    apply filter_In. split.
    + apply in_interviews_in, in_mine; [discriminate|].
      repeat split; [exact Hin | cbn; congruence].
    + apply andb_true_iff. split; apply Z.leb_le; assumption.
Qed.

(** The Upcoming Interviews card of the schedule, when the page renders
    within one instant [now]: it shows between one and five interviews, all
    of them interviews of the user in the month on show and later than now,
    the soonest first; and any later interview of the month that is left out
    is no sooner than each one shown. The card has its "none" line exactly
    when the month has no interview later than now. *)
Theorem schedule_shows_the_soonest :
  forall (user : uuid) (start finish now : timestamptz) (d : Store.database),
    (SchedulePage.upcoming (fun _ => now) (SchedulePage.fetchInterviews user start finish d)
     = None
     <-> forall e, In e (SchedulePage.fetchInterviews user start finish d) ->
                   e.(SchedulePage.interview_date) <= now)
    /\ (forall shown,
          SchedulePage.upcoming (fun _ => now)
            (SchedulePage.fetchInterviews user start finish d) = Some shown ->
          (1 <= List.length shown <= 5)%nat
          /\ (forall e, In e shown ->
                now < e.(SchedulePage.interview_date)
                /\ exists i, In (Store.interviews_row i) d
                             /\ i.(Interview.user_id) = user
                             /\ start <= i.(Interview.interview_date) <= finish
                             /\ e = SchedulePage.selected i)
          /\ StronglySorted
               (fun a b => a.(SchedulePage.interview_date) <= b.(SchedulePage.interview_date))
               shown
          /\ (forall e s,
                In e (SchedulePage.fetchInterviews user start finish d) ->
                now < e.(SchedulePage.interview_date) ->
                ~ In e shown -> In s shown ->
                s.(SchedulePage.interview_date) <= e.(SchedulePage.interview_date))).
Proof.
  intros user start finish now d.
  set (l := SchedulePage.fetchInterviews user start finish d).
  unfold SchedulePage.upcoming. rewrite !after_now_fixed.
  set (f := filter (fun e => now <? e.(SchedulePage.interview_date)) l).
  assert (Hf : forall e, In e f <-> In e l /\ now < e.(SchedulePage.interview_date)).
  { intros e. unfold f. rewrite filter_In, Z.ltb_lt. reflexivity. }
  assert (Hs : StronglySorted
                 (fun a b => a.(SchedulePage.interview_date) <= b.(SchedulePage.interview_date))
                 f)
    by (apply strongly_sorted_filter; apply fetched_schedule_sorted).
  split.
  - split.
    + intros H e He.
      destruct (Z.le_gt_cases (SchedulePage.interview_date e) now) as [Hle | Hgt];
        [exact Hle|].
      assert (In e f) by (apply Hf; split; [exact He | lia]).
      destruct f; [contradiction | discriminate H].
    + intros H. destruct f as [|e f'] eqn:E; [reflexivity|]. exfalso.
      assert (He : In e (e :: f')) by (left; reflexivity).
      apply Hf in He. destruct He as [He Hlt].
      specialize (H e He). lia.
  - intros shown H.
    assert (Hshown : shown = firstn 5 f /\ f <> []).
    { destruct f; [discriminate H|]. inversion H. split; [reflexivity | discriminate]. }
    destruct Hshown as [-> Hne]. clear H.
    rewrite <- (firstn_skipn 5 f) in Hs. apply strongly_sorted_app in Hs.
    destruct Hs as [Hsorted Hcross].
    split; [|split; [|split]].
    + split; [|apply firstn_le_length].
      destruct f as [|e f']; [contradiction Hne; reflexivity | cbn; lia].
    + intros e He.
      assert (He' : In e f)
        by (rewrite <- (firstn_skipn 5 f); apply in_or_app; left; exact He).
      apply Hf in He'. destruct He' as [He' Hlt]. clear He. rename He' into He.
      split; [exact Hlt|]. apply in_fetched_schedule. exact He.
    + exact Hsorted.
    + intros e s He Hlt Hout Hin.
      apply Hcross; [exact Hin|].
      assert (Hef : In e f) by (apply Hf; split; assumption).
      rewrite <- (firstn_skipn 5 f) in Hef. apply in_app_or in Hef.
      destruct Hef; [contradiction | assumption].
Qed.

Lemma schedule_shows_the_soonest_witness :
  (1 <= List.length [SchedulePage.selected Sample.first_round;
                     SchedulePage.selected Sample.onsite] <= 5)%nat.
Proof.
  apply (schedule_shows_the_soonest "alice" 0 5000 500 Sample.alices_database).
  reflexivity.
Defined.

(* ================================================================= *)
(** * Signing in and signing up *)

Lemma not_shorter (n : nat) (s : string) :
  AuthPage.shorter_than n s = false <-> (n <= String.length s)%nat.
Proof. unfold AuthPage.shorter_than. rewrite Nat.ltb_ge. reflexivity. Qed.

(** The forms of the sign-in page call the identity provider exactly when
    the input passes the checks (a valid email and a password of at least 6
    characters; for sign-up also a name of at least 2), so never with input
    that fails one. Signing in leads to the dashboard exactly when the
    provider was called and reported no error, and nowhere else; signing up
    never navigates. *)
Theorem auth_forms_gate :
  forall (valid_email : string -> bool),
    (forall signIn email password,
        (AuthPage.provider_called (AuthPage.handleSignIn valid_email signIn email password)
         = true
         <-> valid_email email = true /\ (6 <= String.length password)%nat)
        /\ (AuthPage.navigated (AuthPage.handleSignIn valid_email signIn email password)
            = Some "/"
            <-> valid_email email = true /\ (6 <= String.length password)%nat
                /\ signIn email password = None)
        /\ (AuthPage.navigated (AuthPage.handleSignIn valid_email signIn email password)
            = None
            \/ AuthPage.navigated (AuthPage.handleSignIn valid_email signIn email password)
               = Some "/"))
    /\ (forall signUp email password fullName,
          (AuthPage.provider_called
             (AuthPage.handleSignUp valid_email signUp email password fullName) = true
           <-> (2 <= String.length fullName)%nat
               /\ valid_email email = true
               /\ (6 <= String.length password)%nat)
          /\ AuthPage.navigated
               (AuthPage.handleSignUp valid_email signUp email password fullName) = None).
Proof.
  intros valid_email. split.
  - intros signIn email password. unfold AuthPage.handleSignIn.
    destruct (valid_email email); cbn [negb].
    + destruct (AuthPage.shorter_than 6 password) eqn:E.
      * unfold AuthPage.shorter_than in E. apply Nat.ltb_lt in E. cbn.
        split; [|split]; [split; [discriminate | lia] | split; [discriminate | lia] | auto].
      * apply not_shorter in E.
        destruct (signIn email password); cbn;
          (split; [|split]; [tauto | | auto]);
          split; try discriminate; try tauto.
        intros (_ & _ & H). discriminate H.
    + cbn. split; [|split]; [| | auto]; split; try discriminate;
        intros [H _]; discriminate H.
  - intros signUp email password fullName. unfold AuthPage.handleSignUp.
    destruct (AuthPage.shorter_than 2 fullName) eqn:En.
    { unfold AuthPage.shorter_than in En. apply Nat.ltb_lt in En. cbn. split; [|reflexivity]. split; [discriminate | lia]. }
    apply not_shorter in En.
    destruct (valid_email email); cbn [negb].
    + destruct (AuthPage.shorter_than 6 password) eqn:E.
      * unfold AuthPage.shorter_than in E. apply Nat.ltb_lt in E. cbn. split; [|reflexivity]. split; [discriminate | lia].
      * apply not_shorter in E.
        destruct (signUp email password fullName); cbn; (split; [tauto | reflexivity]).
    + cbn. split; [|reflexivity]. split; [discriminate|]. intros (_ & H & _). discriminate H.
Qed.

Lemma auth_forms_gate_witness :
  AuthPage.provider_called
    (AuthPage.handleSignIn (fun e => Text.includes e "@") (fun _ _ => None)
       "alice@example.com" "secret1")
  = true.
Proof.
  apply (auth_forms_gate (fun e => Text.includes e "@")).
  split; [reflexivity | cbn; lia].
Defined.

Example short_password_stays_local :
  AuthPage.handleSignIn (fun e => Text.includes e "@") (fun _ _ => None)
    "alice@example.com" "12345"
  = AuthPage.rejected "Password must be at least 6 characters".
Proof. reflexivity. Qed.

(* ================================================================= *)
(** ** The two views of the Interviews page, once more *)

Lemma one_view_off_the_instant_witness :
  (In Sample.first_round
      (InterviewsPage.upcomingInterviews (fun _ => 999) [Sample.first_round])
   /\ ~ In Sample.first_round
          (InterviewsPage.pastInterviews (fun _ => 999) [Sample.first_round]))
  \/ (In Sample.first_round
         (InterviewsPage.pastInterviews (fun _ => 999) [Sample.first_round])
      /\ ~ In Sample.first_round
             (InterviewsPage.upcomingInterviews (fun _ => 999) [Sample.first_round])).
Proof.
  apply (one_view_off_the_instant 999 [Sample.first_round] Sample.first_round).
  - left. reflexivity.
  - cbn. lia.
Defined.
